(** * The Informix connector for LoopBack: a shallow embedding

    The development follows [lib/informix.js] and [lib/transaction.js].
    The first part embeds the JavaScript values the connector handles and
    the host operations it relies on ([String], [Number], [Boolean],
    [JSON.stringify], [JSON.parse], [Array.prototype.slice], the two
    pagination regular expressions).  The second part embeds the
    connector's own functions under their source names.  The theorems
    come last. *)

From Stdlib Require Import ZArith List String Ascii Bool Lia.
From Stdlib Require Import DecimalString.
From Stdlib Require DecimalZ DecimalN DecimalPos DecimalFacts.
Import ListNotations.

Local Open Scope Z_scope.
Local Open Scope list_scope.
Local Open Scope string_scope.

(** ** Characters and text *)

(** The double-quote character, built from its code. *)
Definition dquote_char : ascii := ascii_of_nat 34.
Definition backslash_char : ascii := ascii_of_nat 92.
Definition dquote : string := String dquote_char EmptyString.

(** [\d] of a JavaScript regular expression without the unicode flag. *)
Definition is_digit (c : ascii) : bool :=
  match c with
  | "0" | "1" | "2" | "3" | "4" | "5" | "6" | "7" | "8" | "9" => true
  | _ => false
  end%char.

(** White space as [Number(string)] and [JSON.parse] skip it; strings are
    byte strings here, so the white space above code 160 is left out. *)
Definition is_space (c : ascii) : bool :=
  let n := nat_of_ascii c in
  ((9 <=? n) && (n <=? 13) || (n =? 32) || (n =? 160))%nat.

Definition all_digits (s : string) : bool :=
  forallb is_digit (list_ascii_of_string s).

Definition starts_with_digit (s : string) : bool :=
  match s with
  | String c _ => is_digit c
  | EmptyString => false
  end.

Fixpoint trim_left (s : string) : string :=
  match s with
  | String c r => if is_space c then trim_left r else s
  | EmptyString => EmptyString
  end.

Fixpoint trim_right (s : string) : string :=
  match s with
  | EmptyString => EmptyString
  | String c r =>
      let r' := trim_right r in
      if is_space c && (r' =? EmptyString) then EmptyString else String c r'
  end.

Definition trim (s : string) : string := trim_right (trim_left s).

(** The value of a run of decimal digits, and the decimal text of an
    integer, both through the Standard Library's decimal numerals. *)
Definition digits_to_Z (ds : string) : Z :=
  match NilEmpty.uint_of_string ds with
  | Some d => Z.of_uint d
  | None => 0
  end.

Definition Z_to_string (z : Z) : string := NilZero.string_of_int (Z.to_int z).

(** [String.prototype.toUpperCase] on the ASCII letters. *)
Definition upper_char (c : ascii) : ascii :=
  let n := nat_of_ascii c in
  if ((97 <=? n) && (n <=? 122))%nat then ascii_of_nat (n - 32) else c.

Fixpoint toUpperCase (s : string) : string :=
  match s with
  | EmptyString => EmptyString
  | String c r => String (upper_char c) (toUpperCase r)
  end.

(** [Array.prototype.join] on strings. *)
Definition join (sep : string) (l : list string) : string := String.concat sep l.

(** ** JavaScript values *)

Module JS.

(** Numbers are IEEE doubles in JavaScript.  The connector only counts,
    pads and prints them, so the model keeps the integers and [NaN];
    fractions and infinities are outside it. *)
Inductive Num : Type :=
| NaN
| Int (z : Z).

(** A [Date] object is known through what its methods return.  An
    invalid [Date], whose getters give [NaN], is outside the model. *)
Record Date : Type := mkDate {
  getFullYear : Z;
  getMonth : Z;
  getDate : Z;
  getHours : Z;
  getMinutes : Z;
  getSeconds : Z;
  getMilliseconds : Z;
  getTime : Z;
  toISOString : string;
  toString : string
}.

#[local] Unset Elimination Schemes.
Inductive Value : Type :=
| VUndefined
| VNull
| VBool (b : bool)
| VNum (n : Num)
| VStr (s : string)
| VArr (elems : list Value)
| VObj (props : list (string * Value))
| VDate (d : Date).
#[local] Set Elimination Schemes.

(** What a [throw] carries. *)
Inductive Exception : Type :=
| TypeError
| SyntaxError
| Error (message : string).

Inductive Completion (A : Type) : Type :=
| Return (a : A)
| Throw (e : Exception).
Arguments Return {A} a.
Arguments Throw {A} e.

Definition bind {A B : Type} (c : Completion A) (k : A -> Completion B)
  : Completion B :=
  match c with
  | Return a => k a
  | Throw e => Throw e
  end.

(** [ToBoolean]: what [if (v)], [!v], [a || b] and [a && b] test. *)
Definition ToBoolean (v : Value) : bool :=
  match v with
  | VUndefined | VNull => false
  | VBool b => b
  | VNum NaN => false
  | VNum (Int z) => negb (z =? 0)%Z
  | VStr s => negb (s =? EmptyString)
  | VArr _ | VObj _ | VDate _ => true
  end.

Definition Num_to_string (n : Num) : string :=
  match n with
  | NaN => "NaN"
  | Int z => Z_to_string z
  end.

(** [ToString]: what [String(v)] and ['text' + v] produce. *)
Fixpoint ToString (v : Value) : string :=
  match v with
  | VUndefined => "undefined"
  | VNull => "null"
  | VBool true => "true"
  | VBool false => "false"
  | VNum n => Num_to_string n
  | VStr s => s
  | VArr l =>
      join ","
        (map (fun e => match e with
                       | VUndefined | VNull => EmptyString
                       | _ => ToString e
                       end) l)
  | VObj _ => "[object Object]"
  | VDate d => toString d
  end.

(** [Number(text)]: blank text is zero, a signed run of decimal digits
    is its value, anything else is [NaN].  Texts that denote other
    numbers (a fraction, an exponent, a hexadecimal literal, [Infinity])
    are outside the number model. *)
Definition StringToNumber (s : string) : Num :=
  let t := trim s in
  if t =? EmptyString then Int 0
  else
    let '(sign, body) :=
      match t with
      | String "-"%char r => (-1, r)
      | String "+"%char r => (1, r)
      | _ => (1, t)
      end in
    if negb (body =? EmptyString) && all_digits body
    then Int (sign * digits_to_Z body)
    else NaN.

(** [ToNumber]: what [Number(v)] and [isNaN(v)] convert with. *)
Definition ToNumber (v : Value) : Num :=
  match v with
  | VUndefined => NaN
  | VNull => Int 0
  | VBool true => Int 1
  | VBool false => Int 0
  | VNum n => n
  | VStr s => StringToNumber s
  | VArr _ => StringToNumber (ToString v)
  | VObj _ => NaN
  | VDate d => Int (getTime d)
  end.

Definition isNaN (v : Value) : bool :=
  match ToNumber v with
  | NaN => true
  | Int _ => false
  end.

(** [v !== s] against a string constant. *)
Definition strict_neq_string (v : Value) (s : string) : bool :=
  match v with
  | VStr t => negb (t =? s)
  | _ => true
  end.

(** *** [JSON.stringify] *)

Definition hex_digit (n : nat) : ascii :=
  ascii_of_nat (if (n <? 10)%nat then 48 + n else 87 + n).

(** [QuoteJSONString] on one character: the short escapes, [\u00xx] for
    the other control characters, and the character itself otherwise. *)
Definition quote_char (c : ascii) : string :=
  let n := nat_of_ascii c in
  let esc (e : ascii) := String backslash_char (String e EmptyString) in
  if (n =? 8)%nat then esc "b"%char
  else if (n =? 9)%nat then esc "t"%char
  else if (n =? 10)%nat then esc "n"%char
  else if (n =? 12)%nat then esc "f"%char
  else if (n =? 13)%nat then esc "r"%char
  else if (n =? 34)%nat then esc dquote_char
  else if (n =? 92)%nat then esc backslash_char
  else if (n <? 32)%nat then
    String backslash_char
      (String "u" (String "0" (String "0"
        (String (hex_digit (n / 16)) (String (hex_digit (n mod 16)) EmptyString)))))
  else String c EmptyString.

Fixpoint quote_body (s : string) : string :=
  match s with
  | EmptyString => EmptyString
  | String c r => quote_char c ++ quote_body r
  end.

Definition quote (s : string) : string := dquote ++ quote_body s ++ dquote.

(** [SerializeJSONProperty]: [None] is the [undefined] that
    [JSON.stringify] gives for [undefined]; inside an array such an
    element prints as [null], inside an object the property is left out.
    A [Date] prints through its [toJSON]. *)
Fixpoint stringify (v : Value) : option string :=
  match v with
  | VUndefined => None
  | VNull => Some "null"
  | VBool true => Some "true"
  | VBool false => Some "false"
  | VNum NaN => Some "null"
  | VNum (Int z) => Some (Z_to_string z)
  | VStr s => Some (quote s)
  | VArr l =>
      Some ("[" ++
            join "," (map (fun e => match stringify e with
                                    | Some t => t
                                    | None => "null"
                                    end) l) ++ "]")
  | VObj props =>
      Some ("{" ++
            join "," (flat_map (fun kv => match stringify (snd kv) with
                                          | Some t => [quote (fst kv) ++ ":" ++ t]
                                          | None => []
                                          end) props) ++ "}")
  | VDate d => Some (quote (toISOString d))
  end.

Definition JSON_stringify (v : Value) : Value :=
  match stringify v with
  | Some t => VStr t
  | None => VUndefined
  end.

(** *** [JSON.parse] *)

Definition is_json_ws (c : ascii) : bool :=
  let n := nat_of_ascii c in
  ((n =? 32) || (n =? 9) || (n =? 10) || (n =? 13))%nat.

Fixpoint skip_ws (s : string) : string :=
  match s with
  | String c r => if is_json_ws c then skip_ws r else s
  | EmptyString => EmptyString
  end.

(** The longest run of digits at the head of a text, and what follows. *)
Fixpoint span_digits (s : string) : string * string :=
  match s with
  | String c r =>
      if is_digit c
      then let '(ds, rest) := span_digits r in (String c ds, rest)
      else (EmptyString, s)
  | EmptyString => (EmptyString, EmptyString)
  end.

Definition hex_value (c : ascii) : option nat :=
  let n := nat_of_ascii c in
  if ((48 <=? n) && (n <=? 57))%nat then Some (n - 48)%nat
  else if ((97 <=? n) && (n <=? 102))%nat then Some (n - 87)%nat
  else if ((65 <=? n) && (n <=? 70))%nat then Some (n - 55)%nat
  else None.

(** The character of a [\uXXXX] escape; code units from 256 on have no
    place in a byte string. *)
Definition unicode_escape (h1 h2 h3 h4 : ascii) : option ascii :=
  match hex_value h1, hex_value h2, hex_value h3, hex_value h4 with
  | Some a, Some b, Some c, Some d =>
      let n := (((a * 16 + b) * 16 + c) * 16 + d)%nat in
      if (n <? 256)%nat then Some (ascii_of_nat n) else None
  | _, _, _, _ => None
  end.

Definition simple_escape (e : ascii) : option ascii :=
  if Ascii.eqb e "b" then Some (ascii_of_nat 8)
  else if Ascii.eqb e "t" then Some (ascii_of_nat 9)
  else if Ascii.eqb e "n" then Some (ascii_of_nat 10)
  else if Ascii.eqb e "f" then Some (ascii_of_nat 12)
  else if Ascii.eqb e "r" then Some (ascii_of_nat 13)
  else if Ascii.eqb e "/" then Some "/"%char
  else if Ascii.eqb e dquote_char then Some dquote_char
  else if Ascii.eqb e backslash_char then Some backslash_char
  else None.

Definition cons_char (c : ascii) (r : option (string * string))
  : option (string * string) :=
  match r with
  | Some (s, rest) => Some (String c s, rest)
  | None => None
  end.

(** A string literal after its opening quote: the text and what follows
    the closing quote. *)
Fixpoint parse_string_body (s : string) : option (string * string) :=
  match s with
  | EmptyString => None
  | String c r =>
      if Ascii.eqb c dquote_char then Some (EmptyString, r)
      else if Ascii.eqb c backslash_char then
        match r with
        | String e r1 =>
            if Ascii.eqb e "u" then
              match r1 with
              | String h1 (String h2 (String h3 (String h4 r2))) =>
                  match unicode_escape h1 h2 h3 h4 with
                  | Some c' => cons_char c' (parse_string_body r2)
                  | None => None
                  end
              | _ => None
              end
            else
              match simple_escape e with
              | Some c' => cons_char c' (parse_string_body r1)
              | None => None
              end
        | EmptyString => None
        end
      else if (nat_of_ascii c <? 32)%nat then None
      else cons_char c (parse_string_body r)
  end.

(** The text after a given prefix, when the text starts with it. *)
Fixpoint strip_prefix (p s : string) : option string :=
  match p with
  | EmptyString => Some s
  | String a p' =>
      match s with
      | String b s' => if Ascii.eqb a b then strip_prefix p' s' else None
      | EmptyString => None
      end
  end.

(** What may not follow the digits of a number in this model: a
    fraction or an exponent, which denote numbers outside the integers. *)
Definition number_continues (rest : string) : bool :=
  match rest with
  | String c _ => Ascii.eqb c "." || Ascii.eqb c "e" || Ascii.eqb c "E"
  | EmptyString => false
  end.

(** A number literal: an optional minus sign and digits, without a
    superfluous leading zero. *)
Definition parse_number (s : string) : option (Num * string) :=
  let '(neg, s1) :=
    match s with
    | String c r => if Ascii.eqb c "-" then (true, r) else (false, s)
    | EmptyString => (false, s)
    end in
  let '(ds, rest) := span_digits s1 in
  match ds with
  | EmptyString => None
  | String d more =>
      if Ascii.eqb d "0" && negb (more =? EmptyString) then None
      else if number_continues rest then None
      else Some (Int (if neg then - digits_to_Z ds else digits_to_Z ds), rest)
  end.

(** [CreateDataProperty] on an object under construction: a key met
    again keeps its place and takes the new value. *)
Fixpoint set_property (k : string) (v : Value) (props : list (string * Value))
  : list (string * Value) :=
  match props with
  | [] => [(k, v)]
  | (k', v') :: rest =>
      if k' =? k then (k', v) :: rest else (k', v') :: set_property k v rest
  end.

Definition build_object (members : list (string * Value)) : Value :=
  VObj (fold_left (fun acc kv => set_property (fst kv) (snd kv) acc) members []).

Definition with_value {A B : Type} (f : A -> B) (r : option (A * string))
  : option (B * string) :=
  match r with
  | Some (a, rest) => Some (f a, rest)
  | None => None
  end.

Definition keyword_value (rest_of_word : string) (v : Value) (r : string)
  : option (Value * string) :=
  match strip_prefix rest_of_word r with
  | Some r' => Some (v, r')
  | None => None
  end.

(** Recursive descent over the JSON grammar; [fuel] bounds the nesting of
    calls and the text's length is always enough. *)
Fixpoint parse_value (fuel : nat) (s : string) {struct fuel}
  : option (Value * string) :=
  match fuel with
  | O => None
  | S fuel' =>
      match s with
      | EmptyString => None
      | String c r =>
          if is_digit c || Ascii.eqb c "-" then with_value VNum (parse_number s)
          else if Ascii.eqb c dquote_char then with_value VStr (parse_string_body r)
          else if Ascii.eqb c "[" then
            match skip_ws r with
            | EmptyString => None
            | String c1 r' =>
                if Ascii.eqb c1 "]" then Some (VArr [], r')
                else with_value VArr (parse_elements fuel' (String c1 r'))
            end
          else if Ascii.eqb c "{" then
            match skip_ws r with
            | EmptyString => None
            | String c1 r' =>
                if Ascii.eqb c1 "}" then Some (VObj [], r')
                else with_value build_object (parse_members fuel' (String c1 r'))
            end
          else if Ascii.eqb c "t" then keyword_value "rue" (VBool true) r
          else if Ascii.eqb c "f" then keyword_value "alse" (VBool false) r
          else if Ascii.eqb c "n" then keyword_value "ull" VNull r
          else None
      end
  end
with parse_elements (fuel : nat) (s : string) {struct fuel}
  : option (list Value * string) :=
  match fuel with
  | O => None
  | S fuel' =>
      match parse_value fuel' (skip_ws s) with
      | Some (v, r) =>
          match skip_ws r with
          | String c r' =>
              if Ascii.eqb c "," then with_value (cons v) (parse_elements fuel' r')
              else if Ascii.eqb c "]" then Some ([v], r')
              else None
          | EmptyString => None
          end
      | None => None
      end
  end
with parse_members (fuel : nat) (s : string) {struct fuel}
  : option (list (string * Value) * string) :=
  match fuel with
  | O => None
  | S fuel' =>
      match skip_ws s with
      | String c r =>
          if Ascii.eqb c dquote_char then
            match parse_string_body r with
            | Some (k, r1) =>
                match skip_ws r1 with
                | String c2 r2 =>
                    if Ascii.eqb c2 ":" then
                      match parse_value fuel' (skip_ws r2) with
                      | Some (v, r3) =>
                          match skip_ws r3 with
                          | String c4 r4 =>
                              if Ascii.eqb c4 "," then
                                with_value (cons (k, v)) (parse_members fuel' r4)
                              else if Ascii.eqb c4 "}" then Some ([(k, v)], r4)
                              else None
                          | EmptyString => None
                          end
                      | None => None
                      end
                    else None
                | EmptyString => None
                end
            | None => None
            end
          else None
      | EmptyString => None
      end
  end.

(** [JSON.parse(text)]: the argument is coerced with [ToString], one value
    is read, and only white space may follow it. *)
Definition JSON_parse (text : Value) : Completion Value :=
  let s := ToString text in
  match parse_value (S (String.length s)) (skip_ws s) with
  | Some (v, rest) =>
      if skip_ws rest =? EmptyString then Return v else Throw SyntaxError
  | None => Throw SyntaxError
  end.

(** *** [Array.prototype.slice] and property reads *)

(** The index a relative position denotes in a sequence of [len] items. *)
Definition clamp_index (len i : Z) : Z :=
  if (i <? 0)%Z then Z.max (len + i) 0 else Z.min i len.

Definition slice_list {A : Type} (l : list A) (start stop : Z) : list A :=
  let len := Z.of_nat (List.length l) in
  let k := clamp_index len start in
  let final := clamp_index len stop in
  firstn (Z.to_nat (final - k)) (skipn (Z.to_nat k) l).

(** [data.slice(start, stop)]: arrays and strings have the method;
    [undefined] and [null] have no properties and the other values have no
    [slice], so the call throws. *)
Definition slice (data : Value) (start stop : Z) : Completion Value :=
  match data with
  | VArr l => Return (VArr (slice_list l start stop))
  | VStr s =>
      Return (VStr (string_of_list_ascii
                      (slice_list (list_ascii_of_string s) start stop)))
  | _ => Throw TypeError
  end.

(** The position an array-index key denotes: decimal digits without a
    superfluous leading zero. *)
Definition array_index (key : string) : option nat :=
  match key with
  | EmptyString => None
  | String c more =>
      if all_digits key && negb (Ascii.eqb c "0" && negb (more =? EmptyString))
      then Some (Z.to_nat (digits_to_Z key))
      else None
  end.

(** Reading a property, [v[key]]: [undefined] and [null] have none, so
    the read throws; an array and a string have [length] and their
    indices; an object has its own properties; anything else that is
    asked for is [undefined]. *)
Definition get_prop (v : Value) (key : string) : Completion Value :=
  match v with
  | VUndefined | VNull => Throw TypeError
  | VArr l =>
      if key =? "length" then Return (VNum (Int (Z.of_nat (List.length l))))
      else
        match array_index key with
        | Some i => Return (nth i l VUndefined)
        | None => Return VUndefined
        end
  | VStr s =>
      if key =? "length" then Return (VNum (Int (Z.of_nat (String.length s))))
      else
        match array_index key with
        | Some i =>
            match String.get i s with
            | Some c => Return (VStr (String c EmptyString))
            | None => Return VUndefined
            end
        | None => Return VUndefined
        end
  | VObj props =>
      match find (fun kv => fst kv =? key) props with
      | Some kv => Return (snd kv)
      | None => Return VUndefined
      end
  | _ => Return VUndefined
  end.

(** *** The pagination regular expressions *)

(** A regular expression of the shape [/KEYWORD(\d+)/]: a literal
    keyword followed by a greedy run of at least one digit, which is the
    only capture group. *)
Record RegExp : Type := mkRegExp { keyword : string }.

(** A match anchored at the head of the text: the digits and the rest. *)
Definition match_here (re : RegExp) (s : string) : option (string * string) :=
  match strip_prefix (keyword re) s with
  | Some r =>
      let '(ds, rest) := span_digits r in
      if ds =? EmptyString then None else Some (ds, rest)
  | None => None
  end.

(** The leftmost match: the text before it, the digits, the text after. *)
Fixpoint exec (re : RegExp) (s : string) : option (string * string * string) :=
  match match_here re s with
  | Some (ds, rest) => Some (EmptyString, ds, rest)
  | None =>
      match s with
      | EmptyString => None
      | String c r =>
          match exec re r with
          | Some (pre, ds, rest) => Some (String c pre, ds, rest)
          | None => None
          end
      end
  end.

(** [s.match(re)]: [null], or the array of the matched text and the
    capture. *)
Definition str_match (s : string) (re : RegExp) : option (list string) :=
  match exec re s with
  | Some (_, ds, _) => Some [keyword re ++ ds; ds]
  | None => None
  end.

(** [s.replace(re, by)] for a regular expression without the [g] flag:
    the leftmost match alone is replaced. *)
Definition str_replace (s : string) (re : RegExp) (by_ : string) : string :=
  match exec re s with
  | Some (pre, _, rest) => pre ++ by_ ++ rest
  | None => s
  end.

(** [v === z] against a number constant, and [typeof v === 'number']. *)
Definition strict_eq_number (v : Value) (z : Z) : bool :=
  match v with
  | VNum (Int x) => (x =? z)%Z
  | _ => false
  end.

Definition is_number (v : Value) : bool :=
  match v with
  | VNum _ => true
  | _ => false
  end.

End JS.

Import JS.

Notation "x <- c ;; k" := (JS.bind c (fun x => k))
  (at level 61, c at next level, right associativity).

(** ** ParameterizedSQL

    The statement type of [loopback-connector], which the connector
    composes its statements with: SQL text and the values bound to its
    placeholders, in order.  The constructor's check that placeholders and
    values agree in number is not part of the model. *)

Module ParameterizedSQL.

Record t : Type := mk { sql : string; params : list Value }.

(** [new ParameterizedSQL(text)]. *)
Definition of_string (text : string) : t := mk text [].

(** [ParameterizedSQL.append(currentStmt, stmt, separator)]: the
    separator goes in when the current text is not empty, the added text
    when it is not empty, and the values are concatenated. *)
Definition append (currentStmt stmt : t) (separator : string) : t :=
  let text := sql currentStmt in
  let text := if negb (text =? EmptyString) then text ++ separator else text in
  let text := if negb (sql stmt =? EmptyString) then text ++ sql stmt else text in
  mk text (params currentStmt ++ params stmt)%list.

(** [ParameterizedSQL.join(sqls, separator)]. *)
Definition join (sqls : list t) (separator : string) : t :=
  fold_left (fun ps stmt => append ps stmt separator) sqls (mk EmptyString []).

(** [stmt.merge(ps)] with the default separator, a space; [merge_all] is
    the same call on an array of statements, which are joined first. *)
Definition merge (stmt ps : t) : t := append stmt ps " ".

Definition merge_all (stmt : t) (ps : list t) : t :=
  append stmt (join ps " ") " ".

(** The object as a JavaScript value. *)
Definition to_value (ps : t) : Value :=
  VObj [("sql", VStr (sql ps)); ("params", VArr (params ps))].

End ParameterizedSQL.

Module PSQL := ParameterizedSQL.

(** ** The connector *)

Module Informix.

(** A connection of the driver, known by an identifier. *)
Definition Connection : Type := nat.

(** The caller's callback, known by a name. *)
Definition Callback : Type := string.

(** The dialect block of a property, [prop.informix]. *)
Record DialectSettings : Type := mkDialect {
  dataType : option string;
  dataLength : option Z;
  dataPrecision : option Z;
  dataScale : option Z
}.

(** A property definition as the model registry holds it.  Absent
    settings are [None]; [id], [autoIncrement] and [generated] are read
    for their truth only. *)
Record PropertyDefinition : Type := mkProperty {
  type_name : string;
  type_string : option string;
  id : bool;
  autoIncrement : bool;
  generated : bool;
  length : option Z;
  precision : option Z;
  scale : option Z;
  prop_dataType : option string;
  informix : option DialectSettings;
  charset : option string;
  collation : option string
}.

Definition truthy_Z (o : option Z) : bool :=
  match o with
  | Some z => negb (z =? 0)%Z
  | None => false
  end.

Definition truthy_string (o : option string) : bool :=
  match o with
  | Some t => negb (t =? EmptyString)
  | None => false
  end.

Definition text_of_Z (o : option Z) : string :=
  match o with
  | Some z => Z_to_string z
  | None => "undefined"
  end.

Definition text_of_string (o : option string) : string :=
  match o with
  | Some t => t
  | None => "undefined"
  end.

(** The connector object: the settings the embedded functions read. *)
Record Connector : Type := mkConnector {
  useLimitOffset : bool;
  connection : Connection;
  schema : string;
  connStr : string
}.

Definition limitRE : RegExp := mkRegExp "LIMIT ".
Definition offsetRE : RegExp := mkRegExp "OFFSET ".

(** What the connector reads of a model through the registry:
    [this.table(model)], [this.idName(model)] and [this.column(model,
    prop)] for each property, in the order of
    [Object.keys(definition.properties)]. *)
Record Model : Type := mkModel {
  table : string;
  idName : string;
  columns : list string
}.

(** *** Identifiers *)

(** [Informix.prototype.escapeName].  The call to [replace] builds the
    text with every double quote doubled; its result is not assigned, and
    JavaScript strings are immutable, so [name] is wrapped as it came. *)
Fixpoint replace_dquotes (s : string) : string :=
  match s with
  | EmptyString => EmptyString
  | String c r =>
      if Ascii.eqb c dquote_char
      then String dquote_char (String dquote_char (replace_dquotes r))
      else String c (replace_dquotes r)
  end.

Definition escapeName (name : string) : string :=
  if name =? EmptyString then name
  else
    let _ := replace_dquotes name in
    dquote ++ name ++ dquote.

Definition tableEscaped (model : Model) : string :=
  let escapedName := escapeName (table model) in
  escapedName.

(** [columnEscaped] of the base connector on a column name. *)
Definition columnEscaped (column : string) : string := escapeName column.

(** *** Column values *)

(** [fillZeros] gives a string below ten and the number itself from ten
    on; every use concatenates it, so the text is what matters. *)
Definition fillZeros (v : Z) : string :=
  if (v <? 10)%Z then "0" ++ Z_to_string v else Z_to_string v.

Definition dateToInformix (val : Date) : string :=
  let dateStr :=
    Z_to_string (getFullYear val) ++ "-"
    ++ fillZeros (getMonth val + 1) ++ "-"
    ++ fillZeros (getDate val) ++ "-"
    ++ fillZeros (getHours val) ++ "."
    ++ fillZeros (getMinutes val) ++ "."
    ++ fillZeros (getSeconds val) ++ "." in
  let ms := getMilliseconds val in
  let ms :=
    if (ms <? 10)%Z then "00000" ++ Z_to_string ms
    else if (ms <? 100)%Z then "0000" ++ Z_to_string ms
    else "000" ++ Z_to_string ms in
  dateStr ++ ms.

Definition one_of (name : string) (cases : list string) : bool :=
  existsb (String.eqb name) cases.

(** [Informix.prototype.toColumnValue].  [prop] may be absent.  In the
    [Date] case a value that is not a [Date] has no [getFullYear]. *)
Definition toColumnValue (prop : option PropertyDefinition) (val : Value)
  : Completion Value :=
  match val with
  | VNull =>
      match prop with
      | None => Throw TypeError
      | Some p =>
          if autoIncrement p || id p
          then Return (PSQL.to_value (PSQL.of_string "DEFAULT"))
          else Return VNull
      end
  | _ =>
      match prop with
      | None => Return val
      | Some p =>
          let name := type_name p in
          if one_of name ["Array"; "Number"; "String"] then Return val
          else if name =? "Boolean" then Return (VNum (ToNumber val))
          else if one_of name ["GeoPoint"; "Point"; "List"; "Object";
                               "ModelConstructor"]
          then Return (JSON_stringify val)
          else if name =? "JSON" then Return (VStr (ToString val))
          else if name =? "Date" then
            match val with
            | VDate d => Return (VStr (dateToInformix d))
            | _ => Throw TypeError
            end
          else Return val
      end
  end.

(** What [fromColumnValue] returns: a value, or the [Date] that
    [new Date(arg)] constructs.  How the [Date] constructor reads a text
    is the host's matter, so the constructed object stays symbolic. *)
Inductive Returned : Type :=
| Plain (v : Value)
| NewDate (arg : Value).

(** [Informix.prototype.fromColumnValue]. *)
Definition fromColumnValue (prop : option PropertyDefinition) (val : Value)
  : Completion Returned :=
  match val, prop with
  | VNull, _ => Return (Plain val)
  | _, None => Return (Plain val)
  | _, Some p =>
      let name := type_name p in
      if name =? "Number" then Return (Plain (VNum (ToNumber val)))
      else if name =? "String" then Return (Plain (VStr (ToString val)))
      else if name =? "Date" then Return (NewDate val)
      else if name =? "Boolean" then Return (Plain (VBool (ToBoolean val)))
      else if one_of name ["GeoPoint"; "Point"; "List"; "Array"; "Object";
                           "JSON"]
      then v <- JSON_parse val ;; Return (Plain v)
      else Return (Plain val)
  end.

(** [fromColumnValue(prop, toColumnValue(prop, val))]. *)
Definition roundTrip (prop : PropertyDefinition) (val : Value)
  : Completion Returned :=
  col <- toColumnValue (Some prop) val ;; fromColumnValue (Some prop) col.

Definition getPlaceholderForValue (key : string) : string := "(?)".

(** [Informix.prototype.buildInsertDefaultValues]: one [DEFAULT] per
    property of the model. *)
Fixpoint more_defaults (count : nat) (result : string) : string :=
  match count with
  | O => result
  | S count' => more_defaults count' (result ++ ",DEFAULT")
  end.

Definition buildInsertDefaultValues (model : Model) : string :=
  let num := List.length (columns model) in
  let result := if (0 <? num)%nat then "DEFAULT" else EmptyString in
  let result := more_defaults (num - 1) result in
  "VALUES(" ++ result ++ ")".

(** *** Pagination *)

(** [buildLimit(limit, offset)]. *)
Definition buildLimit (limit offset : Value) : string :=
  let limit := if isNaN limit then VNum (Int 0) else limit in
  let offset := if isNaN offset then VNum (Int 0) else offset in
  if negb (ToBoolean limit) && negb (ToBoolean offset) then EmptyString
  else if ToBoolean limit && negb (ToBoolean offset) then
    "FETCH FIRST " ++ ToString limit ++ " ROWS ONLY"
  else if ToBoolean offset && negb (ToBoolean limit) then
    "OFFSET " ++ ToString offset
  else "LIMIT " ++ ToString limit ++ " OFFSET " ++ ToString offset.

(** The filter of a query; an absent member is [undefined]. *)
Record Filter : Type := mkFilter {
  f_limit : Value;
  f_offset : Value;
  f_skip : Value
}.

(** [Informix.prototype.applyPagination]. *)
Definition applyPagination (stmt : PSQL.t) (filter : Filter) : PSQL.t :=
  let limitClause :=
    buildLimit (f_limit filter)
      (if ToBoolean (f_offset filter) then f_offset filter else f_skip filter) in
  PSQL.merge stmt (PSQL.of_string limitClause).

(** *** Execution *)

Record Transaction : Type := mkTransaction { tx_connection : Connection }.

Record Options : Type := mkOptions { transaction : option Transaction }.

(** What [conn.query] is called with. *)
Record QueryCall : Type := mkQueryCall {
  q_conn : Connection;
  q_sql : string;
  q_params : list Value
}.

(** What the driver hands to the callback of [conn.query]. *)
Record QueryReply : Type := mkReply {
  err : Value;
  data : Value;
  more : Value
}.

(** One invocation of a callback: at once, or put off with
    [process.nextTick].  A [callee] of [None] is a call of [undefined]. *)
Inductive When : Type := Now | NextTick.

Record Call : Type := mkCall {
  when : When;
  callee : option Callback;
  args : list Value
}.

Definition Num_add (a b : Num) : Num :=
  match a, b with
  | Int x, Int y => Int (x + y)
  | _, _ => NaN
  end.

(** [ToIntegerOrInfinity] of an argument of [slice]. *)
Definition to_index (n : Num) : Z :=
  match n with
  | Int z => z
  | NaN => 0
  end.

(** The first part of [executeSQL]: the connection is chosen and, unless
    [useLimitOffset] is set, the [LIMIT n] and [OFFSET n] of the text are
    taken out of it and kept. *)
Definition prepare (self : Connector) (sql : string) (params : list Value)
    (options : Options) : QueryCall * Num * Num :=
  let conn := connection self in
  let conn :=
    match transaction options with
    | Some tx => tx_connection tx
    | None => conn
    end in
  let limit := Int 0 in
  let offset := Int 0 in
  if negb (useLimitOffset self) then
    let '(limit, sql) :=
      match str_match sql limitRE with
      | Some res =>
          (StringToNumber (nth 1 res EmptyString), str_replace sql limitRE EmptyString)
      | None => (limit, sql)
      end in
    let '(offset, sql) :=
      match str_match sql offsetRE with
      | Some res =>
          (StringToNumber (nth 1 res EmptyString), str_replace sql offsetRE EmptyString)
      | None => (offset, sql)
      end in
    (mkQueryCall conn sql params, limit, offset)
  else (mkQueryCall conn sql params, limit, offset).

(** The callback [executeSQL] gives to [conn.query].  The calls are listed
    in program order: the one put off first, then the direct one. *)
Definition on_reply (limit offset : Num) (callback : option Callback)
    (r : QueryReply) : Completion (list Call) :=
  data <- (if ToBoolean (VNum offset) || ToBoolean (VNum limit)
           then slice (data r) (to_index offset) (to_index (Num_add offset limit))
           else Return (data r)) ;;
  let deferred :=
    if negb (ToBoolean (err r)) && ToBoolean (more r)
    then [mkCall NextTick callback [err r; data]]
    else [] in
  let direct :=
    match callback with
    | Some _ => [mkCall Now callback [err r; data]]
    | None => []
    end in
  Return (deferred ++ direct)%list.

(** [Informix.prototype.executeSQL]: the query sent to the driver and,
    for the driver's reply to it, what the callback of [conn.query] does. *)
Definition executeSQL (self : Connector) (sql : string) (params : list Value)
    (options : Options) (callback : option Callback)
    (driver : QueryCall -> QueryReply) : QueryCall * Completion (list Call) :=
  let '(call, limit, offset) := prepare self sql params options in
  (call, on_reply limit offset callback (driver call)).

(** The callbacks that [create], [update] and [destroyAll] give to
    [execute]; [execute] of the base connector hands them the error and
    the rows that [executeSQL] reports. *)
Definition create_callback (id : string) (callback : option Callback)
    (err info : Value) : Completion (list Call) :=
  if ToBoolean err then Return [mkCall Now callback [err]]
  else
    row <- get_prop info "0" ;;
    v <- get_prop row id ;;
    Return [mkCall Now callback [err; v]].

Definition update_callback (cb : option Callback) (err info : Value)
  : Completion (list Call) :=
  match cb with
  | Some _ =>
      len <- get_prop info "length" ;;
      Return [mkCall Now cb [err; VObj [("count", len)]]]
  | None => Return []
  end.

Definition destroyAll_callback (cb : option Callback) (err info : Value)
  : Completion (list Call) :=
  match cb with
  | Some _ =>
      len <- get_prop info "length" ;;
      Return [mkCall Now cb [err; VObj [("count", len)]]]
  | None => Return []
  end.

(** The name under which an operation's own callback reaches
    [executeSQL]. *)
Definition inner_callback : Callback := "function(err, info)".

(** Each invocation that [executeSQL] makes of the operation's callback,
    with what that callback does in it. *)
Definition through_execute (self : Connector) (sql : string) (params : list Value)
    (options : Options) (handler : Value -> Value -> Completion (list Call))
    (driver : QueryCall -> QueryReply)
  : QueryCall * Completion (list (When * Completion (list Call))) :=
  let '(call, outcome) :=
    executeSQL self sql params options (Some inner_callback) driver in
  (call,
   calls <- outcome ;;
   Return (map (fun c =>
                  (when c,
                   handler (nth 0 (args c) VUndefined) (nth 1 (args c) VUndefined)))
               calls)).

(** [Informix.prototype.create], [update] and [destroyAll]; [stmt] is the
    statement the base connector builds for the operation. *)
Definition create (self : Connector) (model : Model) (stmt : PSQL.t)
    (options : Options) (callback : option Callback)
    (driver : QueryCall -> QueryReply) :=
  let id := idName model in
  let sql := "SELECT " ++ dquote ++ id ++ dquote ++ " FROM FINAL TABLE ("
             ++ PSQL.sql stmt ++ ")" in
  through_execute self sql (PSQL.params stmt) options
    (create_callback id callback) driver.

Definition update (self : Connector) (model : Model) (stmt : PSQL.t)
    (options : Options) (cb : option Callback)
    (driver : QueryCall -> QueryReply) :=
  let id := idName model in
  let sql := "SELECT " ++ dquote ++ id ++ dquote ++ " FROM FINAL TABLE ("
             ++ PSQL.sql stmt ++ ")" in
  through_execute self sql (PSQL.params stmt) options (update_callback cb) driver.

Definition destroyAll (self : Connector) (model : Model) (stmt : PSQL.t)
    (options : Options) (cb : option Callback)
    (driver : QueryCall -> QueryReply) :=
  let id := idName model in
  let sql := "SELECT " ++ dquote ++ id ++ dquote ++ " FROM OLD TABLE ("
             ++ PSQL.sql stmt ++ ")" in
  through_execute self sql (PSQL.params stmt) options (destroyAll_callback cb) driver.

(** *** Column types *)

(** [stringOptions(p, columnType)]. *)
Definition stringOptions (p : PropertyDefinition) (columnType : string) : string :=
  let columnType :=
    if truthy_string (charset p)
    then columnType ++ " CHARACTER SET " ++ text_of_string (charset p)
    else columnType in
  let columnType :=
    if truthy_string (collation p)
    then columnType ++ " COLLATE " ++ text_of_string (collation p)
    else columnType in
  columnType.

(** [convertTextType]; the result of [stringOptions] is not used
    there. *)
Definition convertTextType (p : PropertyDefinition) (defaultType : string)
  : string :=
  let dt := defaultType in
  let len :=
    if truthy_Z (length p) then length p
    else Some (if negb (type_name p =? "String") then 4096
               else if id p then 255 else 512) in
  let len :=
    match informix p with
    | Some block => if truthy_Z (dataLength block) then dataLength block else len
    | None => len
    end in
  let dt :=
    match informix p with
    | Some block =>
        if truthy_string (dataType block) then text_of_string (dataType block)
        else if truthy_string (prop_dataType p) then text_of_string (prop_dataType p)
        else dt
    | None =>
        if truthy_string (prop_dataType p) then text_of_string (prop_dataType p)
        else dt
    end in
  let dt := dt ++ "(" ++ text_of_Z len ++ ")" in
  let _ := stringOptions p dt in
  dt.

Definition positive_Z (o : option Z) : bool :=
  match o with
  | Some z => (0 <? z)%Z
  | None => false
  end.

(** [convertNumberType]. *)
Definition convertNumberType (p : PropertyDefinition) (defaultType : string)
  : Completion string :=
  let dt := defaultType in
  let precision_ := precision p in
  let scale_ := scale p in
  let choice :=
    match informix p with
    | Some block =>
        if truthy_string (dataType block)
        then Some (text_of_string (dataType block),
                   dataPrecision block, dataScale block)
        else if truthy_string (prop_dataType p)
        then Some (text_of_string (prop_dataType p), precision_, scale_)
        else None
    | None =>
        if truthy_string (prop_dataType p)
        then Some (text_of_string (prop_dataType p), precision_, scale_)
        else None
    end in
  match choice with
  | None => Return dt
  | Some (dt, precision_, scale_) =>
      if dt =? "DECIMAL" then
        let dt := "DECIMAL" in
        if truthy_Z precision_ && truthy_Z scale_
        then Return (dt ++ "(" ++ text_of_Z precision_ ++ ","
                        ++ text_of_Z scale_ ++ ")")
        else if positive_Z scale_
        then Throw (Error "Scale without Precision does not make sense")
        else Return dt
      else Return dt
  end.

(** [Informix.prototype.buildColumnType]. *)
Definition buildColumnType (propertyDefinition : PropertyDefinition)
  : Completion string :=
  let p := propertyDefinition in
  let type := type_name p in
  if type =? "Number" then convertNumberType p "INTEGER"
  else if type =? "Date" then Return "TIMESTAMP"
  else if type =? "Boolean" then Return "SMALLINT"
  else if one_of type ["Point"; "GeoPoint"] then Return "POINT"
  else if type =? "Enum" then
    let dt := "ENUM(" ++ text_of_string (type_string p) ++ ")" in
    Return (stringOptions p dt)
  else Return (convertTextType p "VARCHAR").

(** *** Upsert *)

(** What [buildFields] of the base connector returns: three arrays that
    run in parallel, one entry per supplied field. *)
Record Fields : Type := mkFields {
  names : list string;
  columnValues : list PSQL.t;
  properties : list PropertyDefinition
}.

(** [array[i]] followed by a property access: an index out of range gives
    [undefined], which has no properties. *)
Definition item {A : Type} (l : list A) (i : nat) : Completion A :=
  match nth_error l i with
  | Some a => Return a
  | None => Throw TypeError
  end.

(** The first loop of [updateOrCreate], over the indices it visits:
    each value is cast to its column's type, with a comma after all but
    the last. *)
Fixpoint cast_loop (fields : Fields) (n : nat) (indices : list nat)
  : Completion (list PSQL.t) :=
  match indices with
  | [] => Return []
  | i :: rest =>
      cv <- item (columnValues fields) i ;;
      p <- item (properties fields) i ;;
      type <- buildColumnType p ;;
      let ps := PSQL.mk ("CAST (" ++ PSQL.sql cv ++ " AS " ++ type ++ ")")
                        (PSQL.params cv) in
      let ps := if (i <? n - 1)%nat
                then PSQL.mk (PSQL.sql ps ++ ",") (PSQL.params ps)
                else ps in
      others <- cast_loop fields n rest ;;
      Return (ps :: others)
  end.

(** The second loop: an assignment for every field that is not an id. *)
Fixpoint set_loop (fields : Fields) (indices : list nat)
  : Completion (list PSQL.t) :=
  match indices with
  | [] => Return []
  | i :: rest =>
      p <- item (properties fields) i ;;
      if negb (id p) then
        cv <- item (columnValues fields) i ;;
        let ps := PSQL.mk (nth i (names fields) "undefined" ++ "=" ++ "("
                           ++ PSQL.sql cv ++ ")") (PSQL.params cv) in
        others <- set_loop fields rest ;;
        Return (ps :: others)
      else set_loop fields rest
  end.

(** The statement that [updateOrCreate] (also [save]) hands to
    [execute]. *)
Definition updateOrCreate (self : Connector) (model : Model) (fields : Fields)
  : Completion PSQL.t :=
  let id := idName model in
  let sql := PSQL.of_string ("MERGE INTO " ++ toUpperCase (schema self) ++ "."
                             ++ tableEscaped model) in
  let columnValues := columnValues fields in
  let fieldNames := names fields in
  let n := List.length (names fields) in
  sql <-
    (if (0 <? List.length fieldNames)%nat then
       let sql := PSQL.merge sql (PSQL.of_string "AS MT(") in
       let setValues :=
         map (fun column => PSQL.of_string (columnEscaped column)) (columns model) in
       let columns := PSQL.join setValues "," in
       let sql := PSQL.merge sql columns in
       let sql := PSQL.merge sql (PSQL.of_string ")") in
       let sql := PSQL.merge sql
                    (PSQL.of_string "USING (SELECT * FROM TABLE( VALUES(") in
       setValues <- cast_loop fields n (seq 0 n) ;;
       let sql := PSQL.merge_all sql setValues in
       let sql := PSQL.merge sql
                    (PSQL.of_string ("))) AS VT(" ++ join "," fieldNames ++ ")")) in
       let sql := PSQL.merge sql (PSQL.of_string "ON") in
       let sql := PSQL.merge sql
                    (PSQL.of_string ("(MT." ++ dquote ++ id ++ dquote ++ " = VT."
                                     ++ dquote ++ id ++ dquote ++ ")")) in
       let sql := PSQL.merge sql
                    (PSQL.of_string ("WHEN NOT MATCHED THEN INSERT ("
                                     ++ join "," fieldNames ++ ")")) in
       let values := PSQL.join columnValues "," in
       let values := PSQL.mk ("VALUES(" ++ PSQL.sql values ++ ")")
                             (PSQL.params values) in
       Return (PSQL.merge sql values)
     else
       Return (PSQL.merge sql (PSQL.of_string (buildInsertDefaultValues model)))) ;;
  let sql := PSQL.merge sql (PSQL.of_string "WHEN MATCHED THEN UPDATE SET") in
  setValues <- set_loop fields (seq 0 n) ;;
  Return (PSQL.merge sql (PSQL.join setValues ",")).

(** *** The callback of [updateOrCreate], and affected rows *)

(** The callback that [updateOrCreate] gives to [execute]; [data] is the
    instance data, an object known by its properties. *)
Definition updateOrCreate_callback (callback : option Callback)
    (data : list (string * Value)) (err info : Value) : Completion (list Call) :=
  data <- (if negb (ToBoolean err) && ToBoolean info then
             insertId <- get_prop info "insertId" ;;
             if ToBoolean insertId
             then Return (set_property "id" insertId data)
             else Return data
           else Return data) ;;
  meta <- (if ToBoolean info then
             affectedRows <- get_prop info "affectedRows" ;;
             Return [("isNewInstance", VBool (strict_eq_number affectedRows 1))]
           else Return []) ;;
  Return [mkCall Now callback [err; VObj data; VObj meta]].

(** [Informix.prototype.getCountForAffectedRows]. *)
Definition getCountForAffectedRows (info : Value) : Completion Value :=
  if ToBoolean info then
    affectedRows <- get_prop info "affectedRows" ;;
    if is_number affectedRows then get_prop info "affectedRows"
    else Return VUndefined
  else Return VUndefined.

(** *** Construction and connection *)

(** The settings the constructor reads; an absent setting is [None]. *)
Record Settings : Type := mkSettings {
  s_useLimitOffset : option bool;
  s_database : option string;
  s_db : option string;
  s_hostname : option string;
  s_host : option string;
  s_username : option string;
  s_user : option string;
  s_password : option string;
  s_port : option Z;
  s_protocol : option string;
  s_schema : option string
}.

(** [a || b] on settings that are texts when present. *)
Definition or_else (a b : option string) : option string :=
  if truthy_string a then a else b.

(** The connector object as the constructor leaves it. *)
Record Instance : Type := mkInstance {
  this_useLimitOffset : bool;
  this_dbname : option string;
  this_hostname : option string;
  this_username : option string;
  this_password : option string;
  this_portnumber : option Z;
  this_protocol : option string;
  this_connStr : string;
  this_schema : option string
}.

(** The constructor [Informix(settings)]. *)
Definition Informix (settings : Settings) : Instance :=
  let useLimitOffset :=
    match s_useLimitOffset settings with
    | Some true => true
    | _ => false
    end in
  let dbname := or_else (or_else (s_database settings) (s_db settings))
                  (Some "testdb") in
  let hostname := or_else (s_hostname settings) (s_host settings) in
  let username := or_else (s_username settings) (s_user settings) in
  let password := s_password settings in
  let portnumber := s_port settings in
  let protocol := or_else (s_protocol settings) (Some "TCPIP") in
  let connStr :=
    "DRIVER={Informix}"
    ++ ";DATABASE=" ++ text_of_string dbname
    ++ ";HOSTNAME=" ++ text_of_string hostname
    ++ ";UID=" ++ text_of_string username
    ++ ";PWD=" ++ text_of_string password
    ++ ";PORT=" ++ text_of_Z portnumber
    ++ ";PROTOCOL=" ++ text_of_string protocol in
  let schema := username in
  if truthy_string (s_schema settings) then
    mkInstance useLimitOffset dbname hostname username password portnumber protocol
      (connStr ++ ";CurrentSchema=" ++ text_of_string (s_schema settings))
      (Some (toUpperCase (text_of_string (s_schema settings))))
  else
    mkInstance useLimitOffset dbname hostname username password portnumber protocol
      connStr schema.

(** What [connect] reads and writes of the data source. *)
Record DataSource : Type := mkDataSource {
  connected : bool;
  connecting : bool
}.

(** What [connect] does, in order. *)
Inductive ConnectEvent : Type :=
| CLog (text : string)
| COpen (connStr : string)
| CEmit (event : string) (arg : option Value)
| CCallback (args : option (Value * option Connection)).

(** The state [connect] leaves: the data source and [self.connection]. *)
Record Connected : Type := mkConnected {
  c_events : list ConnectEvent;
  c_dataSource : DataSource;
  c_connection : option Connection
}.

Definition is_undefined {A : Type} (o : option A) : bool :=
  match o with
  | None => true
  | Some _ => false
  end.

(** [Informix.prototype.connect]; [open_err] and [con] are what the pool
    hands to the callback of [open], [current] is [self.connection]
    before the call. *)
Definition connect (self : Instance) (dataSource : DataSource)
    (current : option Connection) (cb : bool)
    (open_err : Value) (con : option Connection) : Connected :=
  if is_undefined (this_hostname self)
     || is_undefined (this_portnumber self)
     || is_undefined (this_username self)
     || is_undefined (this_password self)
     || is_undefined (this_protocol self)
  then
    mkConnected
      (CLog ("Invalid connection string:  " ++ this_connStr self)
       :: (if cb then [CCallback None] else []))
      dataSource current
  else
    let dataSource := mkDataSource (connected dataSource) true in
    let opened := COpen (this_connStr self) in
    let called := if cb then [CCallback (Some (open_err, con))] else [] in
    if ToBoolean open_err then
      mkConnected (opened :: CEmit "error" (Some open_err) :: called)
        (mkDataSource false false) current
    else
      mkConnected (opened :: CEmit "connected" None :: called)
        (mkDataSource true false) con.

End Informix.

(** ** Transactions *)

Module Transaction.

Import Informix.

(** The isolation levels of [loopback-connector]'s [Transaction] that the
    connector accepts. *)
Definition READ_COMMITTED : string := "READ COMMITTED".
Definition SERIALIZABLE : string := "SERIALIZABLE".

(** What the driver answers on the dedicated connection: the error each
    call reports to its callback (a falsy value for none) and, for
    [open], the connection. *)
Record Driver : Type := mkDriver {
  open_err : Value;
  open_connection : Connection;
  beginTransaction_err : Value;
  query_err : Value;
  commitTransaction_err : Value;
  rollbackTransaction_err : Value;
  close_err : Value
}.

(** What a transaction operation does, in order: the calls it makes on
    the pool and the connection, and the invocations of [cb]. *)
Inductive Event : Type :=
| EOpen (connStr : string)
| EBeginTransaction (c : Connection)
| EQuery (c : Connection) (sql : string)
| ECommitTransaction (c : Connection)
| ERollbackTransaction (c : Connection)
| EClose (c : Connection)
| ECallback (when : When) (err : Value) (result : option Connection).

(** [new Error(message)] with its [statusCode] set. *)
Definition error_with_status (message : string) (statusCode : Z) : Value :=
  VObj [("message", VStr message); ("statusCode", VNum (Int statusCode))].

(** [Informix.prototype.beginTransaction]. *)
Definition beginTransaction (self : Connector) (driver : Driver)
    (isolationLevel : Value) : list Event :=
  if strict_neq_string isolationLevel READ_COMMITTED
     && strict_neq_string isolationLevel SERIALIZABLE
  then
    let err := error_with_status
                 ("Invalid isolationLevel: " ++ ToString isolationLevel) 400 in
    [ECallback NextTick err None]
  else
    EOpen (connStr self) ::
    let err := open_err driver in
    let connection := open_connection driver in
    if ToBoolean err then [ECallback Now err None]
    else
      EBeginTransaction connection ::
      let err := beginTransaction_err driver in
      if ToBoolean isolationLevel then
        let sql := "SET CURRENT ISOLATION " ++ ToString isolationLevel in
        EQuery connection sql ::
        let err := query_err driver in
        [ECallback Now err (Some connection)]
      else [ECallback Now err (Some connection)].

(** [Informix.prototype.commit]. *)
Definition commit (driver : Driver) (connection : Connection) : list Event :=
  ECommitTransaction connection ::
  let err := commitTransaction_err driver in
  if ToBoolean err then [ECallback Now err None]
  else [EClose connection; ECallback Now (close_err driver) None].

(** [Informix.prototype.rollback]. *)
Definition rollback (driver : Driver) (connection : Connection) : list Event :=
  ERollbackTransaction connection ::
  let err := rollbackTransaction_err driver in
  if ToBoolean err then [ECallback Now err None]
  else [EClose connection; ECallback Now (close_err driver) None].

End Transaction.

(** * Specification vocabulary

    The notions the claims are stated with, defined apart from the code. *)

(** Inside a quoted identifier a double quote is escaped when it is
    doubled: the scan accepts quotes in adjacent pairs only. *)
Fixpoint quotes_doubled (s : string) : bool :=
  match s with
  | EmptyString => true
  | String c r =>
      if Ascii.eqb c dquote_char then
        match r with
        | String c' r' => Ascii.eqb c' dquote_char && quotes_doubled r'
        | EmptyString => false
        end
      else quotes_doubled r
  end.

(** A quoted identifier without its outer quotes. *)
Definition interior (s : string) : string :=
  substring 1 (String.length s - 2) s.

(** A decimal field of a fixed width: [w] digits that denote [z]. *)
Definition field (w : nat) (text : string) (z : Z) : Prop :=
  String.length text = w /\ all_digits text = true /\ digits_to_Z text = z.

(** [field], as a test. *)
Definition field_b (w : nat) (text : string) (z : Z) : bool :=
  (String.length text =? w)%nat && all_digits text && (digits_to_Z text =? z)%Z.

(** The last field of the literal, as [dateToInformix] writes it from
    the milliseconds. *)
Definition fraction (ms : Z) : string :=
  if (ms <? 10)%Z then "00000" ++ Z_to_string ms
  else if (ms <? 100)%Z then "0000" ++ Z_to_string ms
  else "000" ++ Z_to_string ms.

(** The getters of a valid [Date] stay in their calendar ranges. *)
Definition valid_date (d : Date) : Prop :=
  0 <= getMonth d <= 11 /\ 1 <= getDate d <= 31 /\
  0 <= getHours d <= 23 /\ 0 <= getMinutes d <= 59 /\
  0 <= getSeconds d <= 59 /\ 0 <= getMilliseconds d <= 999.

(** An occurrence of a pagination token in a text: the keyword followed
    by at least one digit. *)
Definition is_token (kw s pre ds post : string) : Prop :=
  s = pre ++ kw ++ ds ++ post /\ ds <> EmptyString /\ all_digits ds = true.

(** The leftmost occurrence, with all its digits. *)
Definition FirstToken (kw s pre ds post : string) : Prop :=
  is_token kw s pre ds post /\ starts_with_digit post = false /\
  forall pre' ds' post', is_token kw s pre' ds' post' ->
    (String.length pre <= String.length pre')%nat.

Definition NoToken (kw s : string) : Prop :=
  forall pre ds post, ~ is_token kw s pre ds post.

(** A text with its first token taken out, and the token's value; a text
    without the token stays as it is and the value is zero. *)
Inductive Stripped (kw s : string) : string -> Z -> Prop :=
| stripped_token pre ds post :
    FirstToken kw s pre ds post ->
    Stripped kw s (pre ++ post) (digits_to_Z ds)
| stripped_none :
    NoToken kw s -> Stripped kw s s 0.

(** [result] holds the rows of [rows] at the positions of the half-open
    range from [offset] to [offset + limit]. *)
Definition rows_in_range {A : Type} (offset limit : nat) (rows result : list A)
  : Prop :=
  forall i : nat,
    nth_error result i =
    if (i <? limit)%nat then nth_error rows (offset + i) else None.

(** The connection a statement runs on: the transaction's when the
    options carry one, the connector's own otherwise. *)
Definition chosen_connection (self : Informix.Connector) (options : Informix.Options)
  : Informix.Connection :=
  match Informix.transaction options with
  | Some tx => Informix.tx_connection tx
  | None => Informix.connection self
  end.

(** The pagination inputs of a filter: a number, nothing, or a value
    that is not numeric. *)
Definition pagination_input (v : Value) : Prop :=
  (exists n, v = VNum n) \/ v = VUndefined \/ v = VNull \/ isNaN v = true.

(** The effective value of a pagination input: its number, and zero when
    it is absent or not numeric. *)
Definition effective (v : Value) : Z :=
  match v with
  | VNum (Int z) => z
  | _ => 0
  end.

(** The values that survive [JSON.stringify] followed by [JSON.parse]:
    no [undefined], no [NaN], no [Date], and objects whose keys are
    distinct. *)
Fixpoint distinct (keys : list string) : bool :=
  match keys with
  | [] => true
  | k :: rest => negb (existsb (String.eqb k) rest) && distinct rest
  end.

Fixpoint is_json (v : Value) : bool :=
  match v with
  | VUndefined => false
  | VNull | VBool _ | VStr _ => true
  | VNum NaN => false
  | VNum (Int _) => true
  | VArr l => forallb is_json l
  | VObj props =>
      distinct (map fst props) && forallb (fun kv => is_json (snd kv)) props
  | VDate _ => false
  end.

(** The values of the abstract property types for which the round trip
    through the column value gives the value back. *)
Inductive value_of_type : string -> Value -> Prop :=
| number_value n : value_of_type "Number" (VNum n)
| string_value s : value_of_type "String" (VStr s)
| boolean_value b : value_of_type "Boolean" (VBool b)
| composite_value name v :
    In name ["Object"; "List"; "GeoPoint"; "Point"] ->
    is_json v = true -> v <> VNull ->
    value_of_type name v.

(** The calls of a transaction operation that go to the pool or to a
    connection. *)
Definition is_network_event (e : Transaction.Event) : bool :=
  match e with
  | Transaction.ECallback _ _ _ => false
  | _ => true
  end.

(** The assignments of the update-set list: one for every supplied field
    whose property is not an id, in the order of the fields. *)
Fixpoint assignments (names : list string) (values : list PSQL.t)
    (props : list Informix.PropertyDefinition) : list PSQL.t :=
  match names, values, props with
  | name :: names', value :: values', p :: props' =>
      if Informix.id p then assignments names' values' props'
      else PSQL.mk (name ++ "=(" ++ PSQL.sql value ++ ")") (PSQL.params value)
           :: assignments names' values' props'
  | _, _, _ => []
  end.

(** A bound on the calls the parser nests to read a value back. *)
Fixpoint weight (v : Value) : nat :=
  match v with
  | VArr l => S (list_sum (map (fun e => S (weight e)) l))
  | VObj props => S (list_sum (map (fun kv => S (weight (snd kv))) props))
  | _ => 1
  end.

(** What may follow a value inside a JSON text: nothing, a comma, or a
    closing bracket or brace. *)
Definition delimited (rest : string) : bool :=
  match rest with
  | EmptyString => true
  | String c _ => Ascii.eqb c "," || Ascii.eqb c "]" || Ascii.eqb c "}"
  end.

(** The characters a JSON value's text can start with. *)
Definition value_start (c : ascii) : bool :=
  is_digit c || Ascii.eqb c "-" || Ascii.eqb c dquote_char || Ascii.eqb c "["
  || Ascii.eqb c "{" || Ascii.eqb c "t" || Ascii.eqb c "f" || Ascii.eqb c "n".

(** The text of a value inside an array. *)
Definition element_text (v : Value) : string :=
  match stringify v with
  | Some t => t
  | None => "null"
  end.

(** A value reads back: its text starts like a value, is long enough to
    fuel the parser, and is parsed to the value again in front of any
    delimiter. *)
Definition reads_back (v : Value) : Prop :=
  is_json v = true ->
  exists c t,
    stringify v = Some (String c t) /\
    value_start c = true /\
    (weight v <= S (String.length t))%nat /\
    forall fuel rest,
      (weight v <= fuel)%nat -> delimited rest = true ->
      parse_value fuel (String c t ++ rest) = Some (v, rest).

Definition elements_weight (l : list Value) : nat :=
  list_sum (map (fun e => S (weight e)) l).

(** The text of a property inside an object. *)
Definition member_text (kv : string * Value) : string :=
  quote (fst kv) ++ ":" ++ element_text (snd kv).

Definition members_weight (props : list (string * Value)) : nat :=
  list_sum (map (fun kv => S (weight (snd kv))) props).

(** ** Vocabulary of the further properties *)

(** A property definition with its character set and collation
    replaced. *)
Definition with_string_options (p : Informix.PropertyDefinition)
    (charset collation : option string) : Informix.PropertyDefinition :=
  Informix.mkProperty (Informix.type_name p) (Informix.type_string p)
    (Informix.id p) (Informix.autoIncrement p) (Informix.generated p)
    (Informix.length p) (Informix.precision p) (Informix.scale p)
    (Informix.prop_dataType p) (Informix.informix p) charset collation.

(** The one error that building a column type can raise. *)
Definition scale_error : Exception :=
  Error "Scale without Precision does not make sense".

(** What is left of a keyword to match after one or more of its
    characters. *)
Fixpoint proper_tails (kw : string) : list string :=
  match kw with
  | EmptyString => []
  | String _ r => r :: proper_tails r
  end.

(** A match found in the second part of a text, reported in the whole. *)
Definition found_after (base : string) (found : option (string * string * string))
  : option (string * string * string) :=
  match found with
  | Some (pre, ds, rest) => Some (base ++ pre, ds, rest)
  | None => None
  end.

(** A connector object that has the four settings without which
    [connect] does not open a connection. *)
Definition complete (self : Informix.Instance) : Prop :=
  Informix.this_hostname self <> None /\ Informix.this_portnumber self <> None /\
  Informix.this_username self <> None /\ Informix.this_password self <> None.

(** The number of invocations of [cb] in what a transaction operation
    does. *)
Definition callbacks (trace : list Transaction.Event) : nat :=
  List.length (filter (fun e => negb (is_network_event e)) trace).

(** An operation whose callback is never reached: [executeSQL]'s own
    callback throws a [TypeError], or every invocation of the operation's
    callback does, and there is one at least. *)
Definition fails_before_callback
    (outcome : Completion (list (Informix.When * Completion (list Informix.Call))))
  : Prop :=
  match outcome with
  | Throw e => e = TypeError
  | Return invocations =>
      invocations <> [] /\ Forall (fun i => snd i = Throw TypeError) invocations
  end.

(** * Theorems *)

Arguments is_digit : simpl never.
Arguments is_space : simpl never.
Arguments is_json_ws : simpl never.

(** ** Text *)

Lemma append_nil_r (s : string) : s ++ EmptyString = s.
Proof. induction s as [|c s IH]; simpl; [reflexivity | now rewrite IH]. Qed.

Lemma append_assoc (a b c : string) : (a ++ b) ++ c = a ++ b ++ c.
Proof. induction a as [|x a IH]; simpl; [reflexivity | now rewrite IH]. Qed.

Lemma length_append (a b : string) :
  String.length (a ++ b) = (String.length a + String.length b)%nat.
Proof. induction a as [|x a IH]; simpl; [reflexivity | now rewrite IH]. Qed.

Lemma append_inv_head (a b c : string) : a ++ b = a ++ c -> b = c.
Proof. induction a as [|x a IH]; simpl; intros H; [assumption | injection H; auto]. Qed.

Lemma eqb_empty_false (c : ascii) (s : string) : (String c s =? EmptyString) = false.
Proof. reflexivity. Qed.

Lemma all_digits_cons (c : ascii) (s : string) :
  all_digits (String c s) = is_digit c && all_digits s.
Proof. reflexivity. Qed.

Lemma strip_prefix_app (p r : string) : strip_prefix p (p ++ r) = Some r.
Proof.
  induction p as [|a p IH]; simpl; [reflexivity|].
  now rewrite Ascii.eqb_refl.
Qed.

Lemma strip_prefix_spec (p s r : string) : strip_prefix p s = Some r -> s = p ++ r.
Proof.
  revert s; induction p as [|a p IH]; simpl; intros s H.
  - now injection H.
  - destruct s as [|b s]; [discriminate|].
    destruct (Ascii.eqb_spec a b) as [->|]; [|discriminate].
    now rewrite (IH _ H).
Qed.

Lemma span_digits_spec (s ds rest : string) :
  span_digits s = (ds, rest) ->
  s = ds ++ rest /\ all_digits ds = true /\ starts_with_digit rest = false.
Proof.
  revert ds rest; induction s as [|c s IH]; simpl; intros ds rest H.
  - injection H as <- <-. auto.
  - destruct (is_digit c) eqn:Hc.
    + destruct (span_digits s) as [ds' rest'] eqn:Hs.
      injection H as <- <-.
      destruct (IH _ _ eq_refl) as (-> & Hd & Hr).
      rewrite all_digits_cons, Hc, Hd. auto.
    + injection H as <- <-. simpl. auto.
Qed.

Lemma span_digits_app (ds post : string) :
  all_digits ds = true -> starts_with_digit post = false ->
  span_digits (ds ++ post) = (ds, post).
Proof.
  induction ds as [|c ds IH]; simpl; intros Hd Hp.
  - destruct post as [|c r]; [reflexivity|]. simpl in Hp |- *. now rewrite Hp.
  - rewrite all_digits_cons in Hd. apply andb_prop in Hd as [Hc Hd].
    now rewrite Hc, IH.
Qed.

(** Whatever follows, a run of digits at the head is captured whole or
    extended. *)
Lemma span_digits_head (ds post : string) :
  all_digits ds = true -> ds <> EmptyString ->
  fst (span_digits (ds ++ post)) <> EmptyString.
Proof.
  destruct ds as [|c ds]; [congruence|]. intros Hd _.
  rewrite all_digits_cons in Hd. apply andb_prop in Hd as [Hc _].
  simpl. rewrite Hc. destruct (span_digits (ds ++ post)). discriminate.
Qed.

(** Two ways of splitting one text into digits and a rest that does not
    start with a digit agree. *)
Lemma digits_split_unique (d1 r1 d2 r2 : string) :
  d1 ++ r1 = d2 ++ r2 ->
  all_digits d1 = true -> all_digits d2 = true ->
  starts_with_digit r1 = false -> starts_with_digit r2 = false ->
  d1 = d2 /\ r1 = r2.
Proof.
  intros E H1 H2 R1 R2.
  pose proof (span_digits_app d1 r1 H1 R1) as A.
  pose proof (span_digits_app d2 r2 H2 R2) as B.
  rewrite E in A. rewrite A in B. now injection B.
Qed.

(** ** The pagination regular expressions *)

Lemma match_here_spec (kw s ds rest : string) :
  match_here (mkRegExp kw) s = Some (ds, rest) ->
  s = kw ++ ds ++ rest /\ ds <> EmptyString /\ all_digits ds = true /\
  starts_with_digit rest = false.
Proof.
  unfold match_here; simpl.
  destruct (strip_prefix kw s) as [r|] eqn:Hp; [|discriminate].
  destruct (span_digits r) as [ds' rest'] eqn:Hs.
  destruct ds' as [|c ds']; simpl; [discriminate|].
  intros H; injection H as <- <-.
  apply strip_prefix_spec in Hp. apply span_digits_spec in Hs as (-> & Hd & Hr).
  repeat split; auto. discriminate.
Qed.

Lemma match_here_token (kw ds post : string) :
  ds <> EmptyString -> all_digits ds = true ->
  match_here (mkRegExp kw) (kw ++ ds ++ post) <> None.
Proof.
  intros Hn Hd. unfold match_here; simpl. rewrite strip_prefix_app.
  pose proof (span_digits_head ds post Hd Hn) as H.
  destruct (span_digits (ds ++ post)) as [ds' rest']. simpl in H.
  destruct ds'; [congruence|]. simpl. discriminate.
Qed.

Lemma exec_Some_FirstToken (kw s pre ds post : string) :
  exec (mkRegExp kw) s = Some (pre, ds, post) -> FirstToken kw s pre ds post.
Proof.
  revert pre; induction s as [|c s IH]; intros pre H.
  - simpl in H. destruct (match_here (mkRegExp kw) EmptyString) as [[d r]|] eqn:Hm;
      [|discriminate].
    injection H as <- <- <-. apply match_here_spec in Hm as (E & Hn & Hd & Hr).
    repeat split; auto. intros; simpl; lia.
  - simpl in H. destruct (match_here (mkRegExp kw) (String c s)) as [[d r]|] eqn:Hm.
    + injection H as <- <- <-. apply match_here_spec in Hm as (E & Hn & Hd & Hr).
      repeat split; auto. intros; simpl; lia.
    + destruct (exec (mkRegExp kw) s) as [[[p d] r]|] eqn:He; [|discriminate].
      injection H as <- <- <-.
      destruct (IH _ eq_refl) as ((E & Hn & Hd) & Hr & Hmin).
      repeat split; auto.
      * simpl. now rewrite E.
      * intros pre' ds' post' (E' & Hn' & Hd').
        destruct pre' as [|c' pre'].
        -- exfalso. simpl in E'. rewrite E' in Hm.
           now apply (match_here_token kw ds' post' Hn' Hd').
        -- simpl in E'. injection E' as -> E'.
           simpl. apply le_n_S. apply (Hmin pre' ds' post'). repeat split; auto.
Qed.

Lemma exec_None_NoToken (kw s : string) :
  exec (mkRegExp kw) s = None -> NoToken kw s.
Proof.
  induction s as [|c s IH]; intros H pre ds post (E & Hn & Hd).
  - simpl in H. destruct (match_here (mkRegExp kw) EmptyString) as [[d r]|] eqn:Hm;
      [discriminate|].
    destruct pre; simpl in E; [|discriminate].
    rewrite E in Hm. now apply (match_here_token kw ds post Hn Hd).
  - simpl in H. destruct (match_here (mkRegExp kw) (String c s)) as [[d r]|] eqn:Hm;
      [discriminate|].
    destruct (exec (mkRegExp kw) s) as [[[p d] r]|] eqn:He; [discriminate|].
    destruct pre as [|c' pre]; simpl in E.
    + rewrite E in Hm. now apply (match_here_token kw ds post Hn Hd).
    + injection E as -> E. apply (IH eq_refl pre ds post). repeat split; auto.
Qed.

Lemma NoToken_exec (kw s : string) :
  NoToken kw s -> exec (mkRegExp kw) s = None.
Proof.
  intros H. destruct (exec (mkRegExp kw) s) as [[[p d] r]|] eqn:He; [|reflexivity].
  apply exec_Some_FirstToken in He as (T & _). now destruct (H _ _ _ T).
Qed.

Lemma prefix_length_eq (a b x y : string) :
  a ++ x = b ++ y -> String.length a = String.length b -> a = b /\ x = y.
Proof.
  revert b; induction a as [|c a IH]; intros [|d b]; simpl; intros E L;
    try discriminate; auto.
  injection E as -> E. injection L as L. destruct (IH _ E L) as [-> ->]. auto.
Qed.

Lemma FirstToken_exec (kw s pre ds post : string) :
  FirstToken kw s pre ds post -> exec (mkRegExp kw) s = Some (pre, ds, post).
Proof.
  intros (T & Hr & Hmin).
  destruct (exec (mkRegExp kw) s) as [[[p d] r]|] eqn:He.
  - apply exec_Some_FirstToken in He as (T' & Hr' & Hmin').
    pose proof (Hmin _ _ _ T') as L1. pose proof (Hmin' _ _ _ T) as L2.
    destruct T as (E & Hn & Hd), T' as (E' & Hn' & Hd').
    rewrite E in E'.
    destruct (prefix_length_eq _ _ _ _ E' ltac:(lia)) as [<- E2].
    apply append_inv_head in E2.
    destruct (digits_split_unique _ _ _ _ E2 Hd Hd' Hr Hr') as [<- <-].
    reflexivity.
  - apply exec_None_NoToken in He. now destruct (He _ _ _ T).
Qed.
(** ** Digits and numbers *)

Lemma is_digit_not_space (c : ascii) : is_digit c = true -> is_space c = false.
Proof.
  destruct c as [[] [] [] [] [] [] [] []]; cbv; intros H;
    first [discriminate H | reflexivity].
Qed.

Lemma trim_right_digits (ds : string) : all_digits ds = true -> trim_right ds = ds.
Proof.
  induction ds as [|c ds IH]; simpl; intros H; [reflexivity|].
  rewrite all_digits_cons in H. apply andb_prop in H as [Hc Hd].
  now rewrite (is_digit_not_space c Hc), (IH Hd).
Qed.

Lemma trim_digits (ds : string) : all_digits ds = true -> trim ds = ds.
Proof.
  intros H. unfold trim.
  destruct ds as [|c ds]; [reflexivity|].
  pose proof H as H'. rewrite all_digits_cons in H'. apply andb_prop in H' as [Hc _].
  simpl trim_left. rewrite (is_digit_not_space c Hc).
  now apply trim_right_digits.
Qed.

Lemma StringToNumber_digits (ds : string) :
  ds <> EmptyString -> all_digits ds = true ->
  StringToNumber ds = Int (digits_to_Z ds).
Proof.
  intros Hn Hd. unfold StringToNumber. rewrite (trim_digits ds Hd).
  destruct ds as [|c ds]; [congruence|].
  rewrite eqb_empty_false.
  pose proof Hd as H'. rewrite all_digits_cons in H'. apply andb_prop in H' as [Hc _].
  assert (E : match String c ds with
              | String "-"%char r => (-1, r)
              | String "+"%char r => (1, r)
              | _ => (1, String c ds)
              end = (1, String c ds)).
  { destruct c as [[] [] [] [] [] [] [] []]; try reflexivity; discriminate Hc. }
  rewrite E, eqb_empty_false, Hd. simpl negb. simpl andb.
  now rewrite Z.mul_1_l.
Qed.

Lemma digits_to_Z_nonneg (ds : string) : 0 <= digits_to_Z ds.
Proof.
  unfold digits_to_Z. destruct (NilEmpty.uint_of_string ds); [|lia].
  unfold Z.of_uint. apply N2Z.is_nonneg.
Qed.

(** ** Slicing *)

Lemma slice_list_range {A : Type} (rows : list A) (offset limit : Z) :
  0 <= offset -> 0 <= limit ->
  rows_in_range (Z.to_nat offset) (Z.to_nat limit) rows
    (slice_list rows offset (offset + limit)).
Proof.
  intros Ho Hl i. unfold slice_list, clamp_index.
  destruct (Z.ltb_spec offset 0) as [|_]; [lia|].
  destruct (Z.ltb_spec (offset + limit) 0) as [|_]; [lia|].
  rewrite nth_error_firstn, nth_error_skipn.
  set (len := Z.of_nat (List.length rows)).
  destruct (Nat.ltb_spec i (Z.to_nat limit)) as [Hi|Hi];
    destruct (Nat.ltb_spec i (Z.to_nat (Z.min (offset + limit) len - Z.min offset len)))
      as [Hj|Hj]; try reflexivity.
  - f_equal. lia.
  - symmetry. apply nth_error_None. subst len. lia.
  - lia.
Qed.

(** ** [executeSQL] *)

Import Informix.

Lemma strip_step (kw s s' : string) (n : Z) :
  Stripped kw s s' n ->
  match str_match s (mkRegExp kw) with
  | Some res =>
      (StringToNumber (nth 1 res EmptyString), str_replace s (mkRegExp kw) EmptyString)
  | None => (Int 0, s)
  end = (Int n, s').
Proof.
  intros [pre ds post F | N].
  - pose proof (FirstToken_exec _ _ _ _ _ F) as E.
    destruct F as ((_ & Hn & Hd) & _).
    unfold str_match, str_replace. rewrite E. simpl nth.
    now rewrite (StringToNumber_digits ds Hn Hd).
  - unfold str_match. now rewrite (NoToken_exec _ _ N).
Qed.

Lemma Stripped_nonneg (kw s s' : string) (n : Z) : Stripped kw s s' n -> 0 <= n.
Proof. intros [pre ds post _ | _]; [apply digits_to_Z_nonneg | lia]. Qed.

Lemma on_reply_unsliced (callback : option Callback) (r : QueryReply) :
  exists calls,
    on_reply (Int 0) (Int 0) callback r = Return calls /\
    Forall (fun c => args c = [err r; data r]) calls /\
    (callback <> None -> In (mkCall Now callback [err r; data r]) calls).
Proof.
  unfold on_reply. simpl.
  destruct (negb (ToBoolean (err r)) && ToBoolean (more r)), callback as [cb|];
    eexists; (split; [reflexivity|]);
    (split; [repeat constructor | intros H; simpl; try congruence; auto]).
Qed.

Lemma NoToken_check (kw s : string) : exec (mkRegExp kw) s = None -> NoToken kw s.
Proof. apply exec_None_NoToken. Qed.

Lemma Stripped_check (kw s pre ds post : string) :
  exec (mkRegExp kw) s = Some (pre, ds, post) ->
  Stripped kw s (pre ++ post) (digits_to_Z ds).
Proof. intros H. apply stripped_token. now apply exec_Some_FirstToken. Qed.

(** One call of [executeSQL] on a connector that paginates on the client
    side. *)
Section ClientSidePagination.

Variable self : Connector.
Variable params : list Value.
Variable options : Options.
Variable callback : Callback.
Variable driver : QueryCall -> QueryReply.

Hypothesis client_side : useLimitOffset self = false.

Lemma prepare_stripped (sql sql1 sql2 : string) (limit offset : Z) :
  Stripped "LIMIT " sql sql1 limit ->
  Stripped "OFFSET " sql1 sql2 offset ->
  prepare self sql params options =
  (mkQueryCall (chosen_connection self options) sql2 params, Int limit, Int offset).
Proof.
  intros L O. unfold prepare. rewrite client_side. simpl negb. cbv iota.
  unfold limitRE, offsetRE.
  rewrite (strip_step _ _ _ _ L).
  rewrite (strip_step _ _ _ _ O).
  reflexivity.
Qed.

(** C10.  With client-side pagination active and neither a [LIMIT n] nor
    an [OFFSET n] in the text, [executeSQL] sends the text as it is and
    hands the driver's row-set to the callback untouched: every call of
    the callback carries the driver's [data] itself, whatever it is, and
    no slice is taken. *)
Theorem executeSQL_without_tokens_passes_rows (sql : string) :
  NoToken "LIMIT " sql ->
  NoToken "OFFSET " sql ->
  let call := mkQueryCall (chosen_connection self options) sql params in
  let r := driver call in
  exists calls,
    executeSQL self sql params options (Some callback) driver = (call, Return calls) /\
    Forall (fun c => args c = [err r; data r]) calls /\
    In (mkCall Now (Some callback) [err r; data r]) calls.
Proof.
  intros L O call r. unfold executeSQL.
  rewrite (prepare_stripped sql sql sql 0 0 (stripped_none _ _ L) (stripped_none _ _ O)).
  destruct (on_reply_unsliced (Some callback) r) as (calls & E & F & I).
  exists calls. subst call r. rewrite E. repeat split; auto. apply I. discriminate.
Qed.

(** C6, amended.  With client-side pagination active, [executeSQL] takes
    the first [LIMIT n] and then the first [OFFSET n] out of the text it
    sends and keeps their values; when the query succeeds with an array
    of rows and at least one of the two values is not zero, every call of
    the callback carries exactly the rows at the positions from [offset]
    up to, and not including, [offset + limit]. *)
Theorem executeSQL_slices_rows
    (sql sql1 sql2 : string) (limit offset : Z) (rows : list Value) :
  Stripped "LIMIT " sql sql1 limit ->
  Stripped "OFFSET " sql1 sql2 offset ->
  limit <> 0 \/ offset <> 0 ->
  let call := mkQueryCall (chosen_connection self options) sql2 params in
  ToBoolean (err (driver call)) = false ->
  data (driver call) = VArr rows ->
  exists calls result,
    executeSQL self sql params options (Some callback) driver = (call, Return calls) /\
    rows_in_range (Z.to_nat offset) (Z.to_nat limit) rows result /\
    Forall (fun c => args c = [err (driver call); VArr result]) calls /\
    In (mkCall Now (Some callback) [err (driver call); VArr result]) calls.
Proof.
  intros L O NZ call Herr Hdata.
  pose proof (Stripped_nonneg _ _ _ _ L) as Hl.
  pose proof (Stripped_nonneg _ _ _ _ O) as Ho.
  unfold executeSQL. rewrite (prepare_stripped sql sql1 sql2 limit offset L O).
  fold call. unfold on_reply. rewrite Hdata, Herr. simpl ToBoolean.
  assert (G : negb (offset =? 0)%Z || negb (limit =? 0)%Z = true).
  { destruct (Z.eqb_spec offset 0), (Z.eqb_spec limit 0); simpl; auto. lia. }
  rewrite G. simpl.
  exists (if ToBoolean (more (driver call))
          then [mkCall NextTick (Some callback)
                  [err (driver call); VArr (slice_list rows offset (offset + limit))];
                mkCall Now (Some callback)
                  [err (driver call); VArr (slice_list rows offset (offset + limit))]]
          else [mkCall Now (Some callback)
                  [err (driver call); VArr (slice_list rows offset (offset + limit))]]),
         (slice_list rows offset (offset + limit)).
  split; [|split; [|split]].
  - destruct (ToBoolean (more (driver call))); reflexivity.
  - now apply slice_list_range.
  - destruct (ToBoolean (more (driver call))); repeat constructor.
  - destruct (ToBoolean (more (driver call))); simpl; auto.
Qed.

End ClientSidePagination.

Lemma executeSQL_without_tokens_passes_rows_witness :
  let self := mkConnector false 1%nat "APP" "DRIVER={Informix}" in
  let rows := VArr [VObj [("ID", VNum (Int 1))]; VObj [("ID", VNum (Int 2))]] in
  let driver := fun _ : QueryCall => mkReply VNull rows (VBool false) in
  exists calls,
    executeSQL self "SELECT * FROM T" [] (mkOptions None) (Some "cb") driver
    = (mkQueryCall 1%nat "SELECT * FROM T" [], Return calls) /\
    Forall (fun c => args c = [VNull; rows]) calls /\
    In (mkCall Now (Some "cb") [VNull; rows]) calls.
Proof.
  intros self rows driver.
  apply (executeSQL_without_tokens_passes_rows self [] (mkOptions None) "cb" driver
           eq_refl "SELECT * FROM T").
  - apply NoToken_check. vm_compute. reflexivity.
  - apply NoToken_check. vm_compute. reflexivity.
Defined.

(** C6, as stated, fails on a text whose token is [LIMIT 0]: the token is
    taken out and its value kept, and the driver's two rows reach the
    callback although the range from 0 to 0 holds none. *)
Lemma executeSQL_limit_zero_is_not_sliced :
  let self := mkConnector false 1%nat "APP" "DRIVER={Informix}" in
  let rows := [VObj [("ID", VNum (Int 1))]; VObj [("ID", VNum (Int 2))]] in
  let driver := fun _ : QueryCall => mkReply VNull (VArr rows) (VBool false) in
  prepare self "SELECT * FROM T LIMIT 0" [] (mkOptions None)
  = (mkQueryCall 1%nat "SELECT * FROM T " [], Int 0, Int 0) /\
  executeSQL self "SELECT * FROM T LIMIT 0" [] (mkOptions None) (Some "cb") driver
  = (mkQueryCall 1%nat "SELECT * FROM T " [],
     Return [mkCall Now (Some "cb") [VNull; VArr rows]]) /\
  ~ rows_in_range 0 0 rows rows.
Proof.
  cbv zeta. split; [vm_compute; reflexivity|]. split; [vm_compute; reflexivity|].
  intros H. specialize (H 0%nat). discriminate H.
Qed.

Lemma executeSQL_slices_rows_witness :
  let self := mkConnector false 1%nat "APP" "DRIVER={Informix}" in
  let row := fun i : Z => VObj [("ID", VNum (Int i))] in
  let rows := [row 1; row 2; row 3; row 4; row 5] in
  let driver := fun _ : QueryCall => mkReply VNull (VArr rows) (VBool false) in
  let call := mkQueryCall 1%nat "SELECT * FROM T  " [] in
  exists calls result,
    executeSQL self "SELECT * FROM T LIMIT 2 OFFSET 1" [] (mkOptions None)
      (Some "cb") driver = (call, Return calls) /\
    rows_in_range 1 2 rows result /\
    Forall (fun c => args c = [VNull; VArr result]) calls /\
    In (mkCall Now (Some "cb") [VNull; VArr result]) calls.
Proof.
  intros self row rows driver call.
  apply (executeSQL_slices_rows self [] (mkOptions None) "cb" driver eq_refl
           "SELECT * FROM T LIMIT 2 OFFSET 1"
           "SELECT * FROM T  OFFSET 1" "SELECT * FROM T  " 2 1 rows).
  - apply (Stripped_check "LIMIT " _ "SELECT * FROM T " "2" " OFFSET 1").
    vm_compute. reflexivity.
  - apply (Stripped_check "OFFSET " _ "SELECT * FROM T  " "1" EmptyString).
    vm_compute. reflexivity.
  - left. discriminate.
  - reflexivity.
  - reflexivity.
Defined.

(** C2.  The claim does not hold of the code.  When the driver reports
    further result sets on a successful query, [executeSQL] puts a call of
    the callback off to the next tick and then calls it at once as well:
    two calls for one query.  In [update] (and [destroyAll], which has
    the same callback) an engine error that comes without rows makes
    [info.length] throw before [cb] is reached, and one that comes with
    an empty row-set reaches [cb] together with a count taken from it. *)
Theorem executeSQL_calls_back_twice :
  let self := mkConnector false 1%nat "APP" "DRIVER={Informix}" in
  let model := mkModel "CUSTOMER" "ID" ["ID"; "NAME"] in
  let stmt := PSQL.mk "UPDATE CUSTOMER SET NAME=(?)" [VStr "a"] in
  let rows := VArr [VObj [("ID", VNum (Int 1))]] in
  let failure := VObj [("message", VStr "SQL0204N")] in
  snd (executeSQL self "SELECT 1 FROM T" [] (mkOptions None) (Some "cb")
         (fun _ => mkReply VNull rows (VBool true)))
  = Return [mkCall NextTick (Some "cb") [VNull; rows];
            mkCall Now (Some "cb") [VNull; rows]] /\
  snd (update self model stmt (mkOptions None) (Some "cb")
         (fun _ => mkReply failure VUndefined VUndefined))
  = Return [(Now, Throw TypeError)] /\
  snd (destroyAll self model stmt (mkOptions None) (Some "cb")
         (fun _ => mkReply failure VUndefined VUndefined))
  = Return [(Now, Throw TypeError)] /\
  snd (update self model stmt (mkOptions None) (Some "cb")
         (fun _ => mkReply failure (VArr []) VUndefined))
  = Return [(Now, Return [mkCall Now (Some "cb")
                            [failure; VObj [("count", VNum (Int 0))]]])] /\
  snd (create self model stmt (mkOptions None) (Some "cb")
         (fun _ => mkReply failure VUndefined VUndefined))
  = Return [(Now, Return [mkCall Now (Some "cb") [failure]])].
Proof. cbv zeta. repeat split; vm_compute; reflexivity. Qed.

(** ** Identifier escaping *)

Lemma escapeName_wraps (name : string) :
  name <> EmptyString -> escapeName name = dquote ++ name ++ dquote.
Proof.
  intros H. unfold escapeName. destruct name; [congruence | reflexivity].
Qed.

(** C1.  The claim does not hold of the code: [escapeName] computes the
    text with the quotes doubled and drops it, so an identifier with a
    double quote inside is wrapped with that quote left bare. *)
Theorem escapeName_leaves_quote_bare :
  let name := String "a" (String dquote_char "b") in
  replace_dquotes name = String "a" (String dquote_char (String dquote_char "b")) /\
  escapeName name = dquote ++ name ++ dquote /\
  interior (escapeName name) = name /\
  quotes_doubled (interior (escapeName name)) = false.
Proof. cbv zeta. repeat split; vm_compute; reflexivity. Qed.

(** ** Transactions *)

Import Transaction.

(** C5.  An isolation level other than the two accepted ones makes
    [beginTransaction] call back, on the next tick, with an error whose
    [statusCode] is 400; that call is all it does, so no connection is
    opened and nothing goes to the network. *)
Theorem beginTransaction_rejects_other_levels
    (self : Connector) (driver : Driver) (isolationLevel : Value) :
  isolationLevel <> VStr READ_COMMITTED ->
  isolationLevel <> VStr SERIALIZABLE ->
  beginTransaction self driver isolationLevel =
    [ECallback NextTick
       (error_with_status ("Invalid isolationLevel: " ++ ToString isolationLevel) 400)
       None] /\
  existsb is_network_event (beginTransaction self driver isolationLevel) = false.
Proof.
  intros H1 H2. unfold beginTransaction.
  assert (E : forall s, isolationLevel <> VStr s ->
                        strict_neq_string isolationLevel s = true).
  { intros s H. destruct isolationLevel; try reflexivity. simpl.
    destruct (String.eqb_spec s0 s) as [->|]; [congruence | reflexivity]. }
  rewrite (E _ H1), (E _ H2). simpl. auto.
Qed.

Lemma beginTransaction_rejects_other_levels_witness :
  let self := mkConnector false 1%nat "APP" "DRIVER={Informix}" in
  let driver := mkDriver VNull 2%nat VNull VNull VNull VNull VNull in
  beginTransaction self driver (VStr "invalid") =
    [ECallback NextTick
       (error_with_status "Invalid isolationLevel: invalid" 400) None] /\
  existsb is_network_event (beginTransaction self driver (VStr "invalid")) = false.
Proof.
  intros self driver.
  apply (beginTransaction_rejects_other_levels self driver (VStr "invalid"));
    discriminate.
Defined.

(** C4.  [commit] and [rollback] start with the native call.  When it
    reports no error the connection is closed next and the callback gets
    what [close] reports; when it reports an error the callback gets that
    very error and the connection is not closed. *)
Theorem commit_rollback_finalize_then_close (driver : Driver) (connection : Connection) :
  (ToBoolean (commitTransaction_err driver) = false ->
   commit driver connection =
     [ECommitTransaction connection; EClose connection;
      ECallback Now (close_err driver) None]) /\
  (ToBoolean (commitTransaction_err driver) = true ->
   commit driver connection =
     [ECommitTransaction connection;
      ECallback Now (commitTransaction_err driver) None]) /\
  (ToBoolean (rollbackTransaction_err driver) = false ->
   rollback driver connection =
     [ERollbackTransaction connection; EClose connection;
      ECallback Now (close_err driver) None]) /\
  (ToBoolean (rollbackTransaction_err driver) = true ->
   rollback driver connection =
     [ERollbackTransaction connection;
      ECallback Now (rollbackTransaction_err driver) None]).
Proof.
  unfold commit, rollback. repeat split; intros H; rewrite H; reflexivity.
Qed.

(** ** Pagination clauses *)

Lemma effective_input (v : Value) :
  pagination_input v ->
  let v' := if isNaN v then VNum (Int 0) else v in
  ToBoolean v' = negb (effective v =? 0)%Z /\
  (ToBoolean v' = true -> ToString v' = Z_to_string (effective v)).
Proof.
  intros [[n ->] | [-> | [-> | H]]].
  - destruct n as [|z]; simpl; [split; [reflexivity | discriminate]|].
    split; [reflexivity|]. auto.
  - simpl. split; [reflexivity | discriminate].
  - simpl. split; [reflexivity | discriminate].
  - cbv zeta. rewrite H. simpl.
    assert (E : effective v = 0).
    { destruct v as [| | |[|z]| | | |]; try reflexivity. discriminate H. }
    rewrite E. split; [reflexivity | discriminate].
Qed.



(** ** The timestamp literal *)

Lemma field_b_field (w : nat) (text : string) (z : Z) :
  field_b w text z = true -> field w text z.
Proof.
  unfold field_b, field. intros H.
  apply andb_prop in H as [H H3]. apply andb_prop in H as [H1 H2].
  apply Nat.eqb_eq in H1. apply Z.eqb_eq in H3. auto.
Qed.

Lemma below (bound : Z) (P : Z -> bool) (z : Z) :
  forallb (fun n => P (Z.of_nat n)) (seq 0 (Z.to_nat bound)) = true ->
  0 <= z < bound -> P z = true.
Proof.
  intros H Hz. rewrite forallb_forall in H.
  specialize (H (Z.to_nat z)). rewrite Z2Nat.id in H by lia.
  apply H. apply in_seq. lia.
Qed.

Lemma fillZeros_field (v : Z) : 0 <= v <= 99 -> field 2 (fillZeros v) v.
Proof.
  intros H. apply field_b_field.
  apply (below 100 (fun z => field_b 2 (fillZeros z) z)); [|lia].
  vm_compute. reflexivity.
Qed.

Lemma fraction_field (ms : Z) : 0 <= ms <= 999 -> field 6 (fraction ms) ms.
Proof.
  intros H. apply field_b_field.
  apply (below 1000 (fun z => field_b 6 (fraction z) z)); [|lia].
  vm_compute. reflexivity.
Qed.

Lemma year_width (y : Z) : 1000 <= y <= 9999 -> String.length (Z_to_string y) = 4%nat.
Proof.
  intros H. apply Nat.eqb_eq.
  replace y with (y - 1000 + 1000) by lia.
  apply (below 9000 (fun z => (String.length (Z_to_string (z + 1000)) =? 4)%nat));
    [|lia].
  vm_compute. reflexivity.
Qed.



(** ** Upsert *)

Lemma append_to_text (cur stmt : PSQL.t) (sep : string) :
  PSQL.sql cur <> EmptyString ->
  PSQL.append cur stmt sep =
  PSQL.mk (PSQL.sql cur ++ sep ++ PSQL.sql stmt)
          (PSQL.params cur ++ PSQL.params stmt)%list.
Proof.
  intros H. unfold PSQL.append.
  destruct (PSQL.sql cur) as [|c t] eqn:E; [congruence|]. simpl negb. cbv iota.
  destruct (PSQL.sql stmt) as [|c' t'] eqn:E'; simpl negb; cbv iota.
  - now rewrite append_nil_r.
  - now rewrite append_assoc.
Qed.

Lemma append_nonempty (a b : string) : a <> EmptyString -> a ++ b <> EmptyString.
Proof. destruct a; [congruence | discriminate]. Qed.

Lemma concat_empty_cons (a : string) (l : list string) :
  String.concat EmptyString (a :: l) = a ++ String.concat EmptyString l.
Proof. destruct l; simpl; [now rewrite append_nil_r | reflexivity]. Qed.

Lemma join_from (items : list PSQL.t) (sep : string) (acc : PSQL.t) :
  PSQL.sql acc <> EmptyString ->
  fold_left (fun ps stmt => PSQL.append ps stmt sep) items acc =
  PSQL.mk (PSQL.sql acc ++ String.concat EmptyString
                              (map (fun x => sep ++ PSQL.sql x) items))
          (PSQL.params acc ++ flat_map PSQL.params items)%list.
Proof.
  revert acc; induction items as [|x items IH]; intros acc H.
  - simpl. rewrite append_nil_r, List.app_nil_r. now destruct acc.
  - simpl fold_left. simpl map. simpl flat_map. rewrite concat_empty_cons.
    rewrite IH; rewrite (append_to_text acc x sep H); simpl.
    + now rewrite <- List.app_assoc, !append_assoc.
    + now apply append_nonempty.
Qed.

Lemma concat_with_sep (sep : string) (x : string) (rest : list string) :
  x ++ String.concat EmptyString (map (fun y => sep ++ y) rest) =
  String.concat sep (x :: rest).
Proof.
  revert x; induction rest as [|y rest IH]; intros x.
  - simpl. apply append_nil_r.
  - simpl map. rewrite concat_empty_cons.
    change (String.concat sep (x :: y :: rest))
      with (x ++ sep ++ String.concat sep (y :: rest)).
    rewrite <- IH. now rewrite !append_assoc.
Qed.

(** Joining statements none of which is empty: the texts with the
    separator between them, and the values in order. *)
Lemma join_text (items : list PSQL.t) (sep : string) :
  Forall (fun x => PSQL.sql x <> EmptyString) items ->
  PSQL.join items sep =
  PSQL.mk (join sep (map PSQL.sql items)) (flat_map PSQL.params items).
Proof.
  intros H. unfold PSQL.join, join.
  destruct items as [|x items]; [reflexivity|].
  inversion H as [|? ? Hx _]; subst.
  simpl fold_left.
  assert (E : PSQL.append (PSQL.mk EmptyString []) x sep
              = PSQL.mk (PSQL.sql x) (PSQL.params x)).
  { unfold PSQL.append. simpl. destruct (PSQL.sql x); [congruence | reflexivity]. }
  rewrite E, join_from by assumption. simpl PSQL.sql. simpl PSQL.params.
  simpl map. rewrite <- (concat_with_sep sep (PSQL.sql x) (map PSQL.sql items)).
  now rewrite map_map.
Qed.

Lemma assignments_nonempty (ns : list string) (vs : list PSQL.t)
    (ps : list PropertyDefinition) :
  Forall (fun x => PSQL.sql x <> EmptyString) (assignments ns vs ps).
Proof.
  revert vs ps; induction ns as [|n ns IH]; intros [|v vs] [|p ps]; simpl;
    try constructor.
  destruct (id p); [apply IH|]. constructor; [|apply IH].
  simpl. intros H. destruct n; discriminate H.
Qed.

Lemma item_middle {A : Type} (pre : list A) (x : A) (rest : list A) :
  item (pre ++ x :: rest)%list (List.length pre) = Return x.
Proof.
  unfold item. rewrite nth_error_app2 by lia.
  now rewrite Nat.sub_diag.
Qed.

(** The second loop visits the fields in order and yields the
    assignments. *)
Lemma set_loop_assignments (fields : Fields) :
  forall (ns : list string) (vs : list PSQL.t) (ps : list PropertyDefinition)
         (ns0 : list string) (vs0 : list PSQL.t) (ps0 : list PropertyDefinition),
    names fields = (ns0 ++ ns)%list -> columnValues fields = (vs0 ++ vs)%list ->
    properties fields = (ps0 ++ ps)%list ->
    List.length vs0 = List.length ns0 -> List.length ps0 = List.length ns0 ->
    List.length vs = List.length ns -> List.length ps = List.length ns ->
    set_loop fields (seq (List.length ns0) (List.length ns)) =
    Return (assignments ns vs ps).
Proof.
  induction ns as [|n ns IH]; intros vs ps ns0 vs0 ps0 En Ev Ep L1 L2 L3 L4.
  - destruct vs, ps; try discriminate. reflexivity.
  - destruct vs as [|v vs]; [discriminate|]. destruct ps as [|p ps]; [discriminate|].
    assert (Ip : item (properties fields) (List.length ns0) = Return p)
      by (rewrite Ep, <- L2; apply item_middle).
    assert (Iv : item (columnValues fields) (List.length ns0) = Return v)
      by (rewrite Ev, <- L1; apply item_middle).
    assert (Iname : nth (List.length ns0) (names fields) "undefined" = n)
      by (rewrite En; apply nth_middle).
    assert (R : set_loop fields (seq (S (List.length ns0)) (List.length ns))
                = Return (assignments ns vs ps)).
    { replace (S (List.length ns0)) with (List.length (ns0 ++ [n])%list)
        by (rewrite length_app; simpl; lia).
      apply (IH vs ps (ns0 ++ [n])%list (vs0 ++ [v])%list (ps0 ++ [p])%list);
        rewrite <- ?List.app_assoc; simpl; auto;
        rewrite ?length_app; simpl in *; lia. }
    simpl seq. simpl set_loop. rewrite Ip. simpl JS.bind.
    simpl assignments. destruct (id p); simpl negb; cbv iota.
    + apply R.
    + rewrite Iv. simpl JS.bind. rewrite R. simpl JS.bind. now rewrite Iname.
Qed.

(** The first loop yields a statement for every field when the column
    types can be built. *)
Lemma cast_loop_returns (fields : Fields) (n : nat) :
  forall (vs : list PSQL.t) (ps : list PropertyDefinition)
         (vs0 : list PSQL.t) (ps0 : list PropertyDefinition),
    columnValues fields = (vs0 ++ vs)%list -> properties fields = (ps0 ++ ps)%list ->
    List.length ps0 = List.length vs0 -> List.length ps = List.length vs ->
    Forall (fun p => exists type, buildColumnType p = Return type) ps ->
    exists casts,
      cast_loop fields n (seq (List.length vs0) (List.length vs)) = Return casts.
Proof.
  induction vs as [|v vs IH]; intros ps vs0 ps0 Ev Ep L1 L2 T.
  - exists []. reflexivity.
  - destruct ps as [|p ps]; [discriminate|].
    inversion T as [|? ? [type Ht] T']; subst.
    destruct (IH ps (vs0 ++ [v])%list (ps0 ++ [p])%list) as [casts Hc];
      rewrite <- ?List.app_assoc; simpl; auto;
      try (rewrite ?length_app; simpl in *; lia).
    replace (List.length (vs0 ++ [v])%list) with (S (List.length vs0)) in Hc
      by (rewrite length_app; simpl; lia).
    assert (Iv : item (columnValues fields) (List.length vs0) = Return v)
      by (rewrite Ev; apply item_middle).
    assert (Ip : item (properties fields) (List.length vs0) = Return p)
      by (rewrite Ep, <- L1; apply item_middle).
    simpl seq. simpl cast_loop.
    rewrite Iv. simpl JS.bind. rewrite Ip. simpl JS.bind.
    rewrite Ht. simpl JS.bind. rewrite Hc. simpl JS.bind.
    eexists. reflexivity.
Qed.

Ltac merge_step :=
  match goal with
  | |- context [PSQL.append (PSQL.of_string ?x) ?b ?sep] =>
      rewrite (append_to_text (PSQL.of_string x) b sep) by (simpl; discriminate)
  | |- context [PSQL.append (PSQL.mk ?x ?p) ?b ?sep] =>
      rewrite (append_to_text (PSQL.mk x p) b sep) by (simpl; discriminate)
  end.



(** ** JSON: what [JSON.stringify] writes, [JSON.parse] reads back *)

(** Induction over values, with the hypothesis available for every
    element of an array and every property of an object. *)
Lemma Value_ind (P : Value -> Prop) :
  P VUndefined -> P VNull -> (forall b, P (VBool b)) -> (forall n, P (VNum n)) ->
  (forall s, P (VStr s)) ->
  (forall l, Forall P l -> P (VArr l)) ->
  (forall props, Forall (fun kv => P (snd kv)) props -> P (VObj props)) ->
  (forall d, P (VDate d)) ->
  forall v, P v.
Proof.
  intros Hu Hn Hb Hnum Hs Ha Ho Hd.
  fix IH 1. intros [| | b | n | s | l | props | d];
    [exact Hu | exact Hn | apply Hb | apply Hnum | apply Hs | | | apply Hd].
  - apply Ha. induction l as [|e l IHl]; constructor; [apply IH | exact IHl].
  - apply Ho. induction props as [|[k e] props IHp]; constructor;
      [apply IH | exact IHp].
Qed.

(** *** Numbers *)

Lemma digits_of_uint (d : Decimal.uint) :
  all_digits (NilEmpty.string_of_uint d) = true.
Proof. induction d; simpl; auto. Qed.

Lemma digits_to_Z_of_uint (d : Decimal.uint) :
  digits_to_Z (NilEmpty.string_of_uint d) = Z.of_uint d.
Proof. unfold digits_to_Z. now rewrite NilEmpty.usu. Qed.

Lemma to_uint_no_leading_zero (p : positive) (d : Decimal.uint) :
  Pos.to_uint p <> Decimal.D0 d.
Proof.
  intros E.
  pose proof (DecimalPos.Unsigned.to_of (Pos.to_uint p)) as H.
  rewrite DecimalPos.Unsigned.of_to in H. simpl N.to_uint in H.
  rewrite E in H. unfold Decimal.unorm in H. simpl Decimal.nzhead in H.
  destruct (Decimal.nzhead d) eqn:Hz; try discriminate H.
  - injection H as ->. apply (DecimalPos.Unsigned.to_uint_nonzero p E).
  - pose proof (DecimalFacts.nb_digits_nzhead d) as L. rewrite Hz in L.
    injection H as <-. simpl in L. lia.
Qed.

Lemma text_of_positive (p : positive) :
  exists c t,
    NilZero.string_of_uint (Pos.to_uint p) = String c t /\
    NilEmpty.string_of_uint (Pos.to_uint p) = String c t /\
    is_digit c = true /\
    (Ascii.eqb c "0" && negb (t =? EmptyString) = false) /\
    digits_to_Z (String c t) = Z.pos p.
Proof.
  pose proof (to_uint_no_leading_zero p) as Hz.
  pose proof (DecimalPos.Unsigned.to_uint_nonnil p) as Hn.
  pose proof (digits_of_uint (Pos.to_uint p)) as Hd.
  pose proof (digits_to_Z_of_uint (Pos.to_uint p)) as Hv.
  unfold Z.of_uint in Hv. rewrite DecimalPos.Unsigned.of_to in Hv. simpl in Hv.
  destruct (Pos.to_uint p) as [|d|d|d|d|d|d|d|d|d|d] eqn:E;
    try congruence; try (now destruct (Hz d));
    simpl in *; eexists; eexists; repeat split; eauto.
Qed.

Lemma delimited_ends_number (rest : string) :
  delimited rest = true ->
  starts_with_digit rest = false /\ number_continues rest = false.
Proof.
  destruct rest as [|c r]; [auto|]. simpl.
  destruct c as [[] [] [] [] [] [] [] []]; cbv; intros H;
    first [discriminate H | auto].
Qed.

Lemma digit_not_minus (c : ascii) : is_digit c = true -> Ascii.eqb c "-" = false.
Proof.
  destruct c as [[] [] [] [] [] [] [] []]; cbv; intros H;
    first [discriminate H | reflexivity].
Qed.

Lemma parse_number_digits (c : ascii) (t rest : string) :
  all_digits (String c t) = true ->
  Ascii.eqb c "0" && negb (t =? EmptyString) = false ->
  delimited rest = true ->
  parse_number (String c t ++ rest) = Some (Int (digits_to_Z (String c t)), rest) /\
  parse_number (String "-" (String c t ++ rest))
  = Some (Int (- digits_to_Z (String c t)), rest).
Proof.
  intros Hall Hz D. destruct (delimited_ends_number rest D) as [Hd Hc].
  pose proof Hall as Hc'. rewrite all_digits_cons in Hc'.
  apply andb_prop in Hc' as [Hc' _].
  unfold parse_number. split.
  - simpl append. cbv beta iota. rewrite (digit_not_minus c Hc').
    change (String c (t ++ rest)) with (String c t ++ rest).
    rewrite (span_digits_app _ _ Hall Hd). now rewrite Hz, Hc.
  - cbv beta iota. simpl Ascii.eqb. cbv beta iota.
    rewrite (span_digits_app _ _ Hall Hd). now rewrite Hz, Hc.
Qed.

Lemma parse_number_text (z : Z) (rest : string) :
  delimited rest = true ->
  parse_number (Z_to_string z ++ rest) = Some (Int z, rest).
Proof.
  intros D. unfold Z_to_string.
  destruct z as [|p|p]; simpl Z.to_int; simpl NilZero.string_of_int.
  - apply (parse_number_digits "0" EmptyString rest); auto.
  - destruct (text_of_positive p) as (c & t & E & E' & Hc' & Hz & Hv).
    pose proof (digits_of_uint (Pos.to_uint p)) as Hall. rewrite E' in Hall.
    rewrite E. destruct (parse_number_digits c t rest Hall Hz D) as [-> _].
    now rewrite Hv.
  - destruct (text_of_positive p) as (c & t & E & E' & Hc' & Hz & Hv).
    pose proof (digits_of_uint (Pos.to_uint p)) as Hall. rewrite E' in Hall.
    rewrite E.
    change (String "-" (String c t) ++ rest) with (String "-" (String c t ++ rest)).
    destruct (parse_number_digits c t rest Hall Hz D) as [_ ->].
    now rewrite Hv.
Qed.

Lemma Z_to_string_start (z : Z) :
  exists c t, Z_to_string z = String c t /\ (is_digit c || Ascii.eqb c "-") = true.
Proof.
  unfold Z_to_string. destruct z as [|p|p]; simpl.
  - eexists; eexists; split; reflexivity.
  - destruct (text_of_positive p) as (c & t & E & _ & Hc & _).
    exists c, t. rewrite E, Hc. auto.
  - eexists; eexists; split; reflexivity.
Qed.
(** *** Strings *)

Lemma parse_quoted_char (c : ascii) (rest : string) :
  parse_string_body (quote_char c ++ rest) = cons_char c (parse_string_body rest).
Proof. destruct c as [[] [] [] [] [] [] [] []]; reflexivity. Qed.

Lemma parse_quote_body (s rest : string) :
  parse_string_body (quote_body s ++ dquote ++ rest) = Some (s, rest).
Proof.
  induction s as [|c s IH].
  - reflexivity.
  - simpl quote_body. rewrite append_assoc, parse_quoted_char, IH. reflexivity.
Qed.

(** *** Values *)

Lemma value_start_facts (c : ascii) :
  value_start c = true ->
  is_json_ws c = false /\ Ascii.eqb c "]" = false /\ Ascii.eqb c "}" = false.
Proof.
  destruct c as [[] [] [] [] [] [] [] []]; cbv; intros H;
    first [discriminate H | auto].
Qed.

Lemma skip_ws_value (c : ascii) (t rest : string) :
  value_start c = true -> skip_ws (String c t ++ rest) = String c t ++ rest.
Proof.
  intros H. destruct (value_start_facts c H) as (W & _). simpl. now rewrite W.
Qed.

Lemma parse_elements_S (fuel : nat) (s : string) :
  parse_elements (S fuel) s =
  match parse_value fuel (skip_ws s) with
  | Some (v, r) =>
      match skip_ws r with
      | String c r' =>
          if Ascii.eqb c "," then with_value (cons v) (parse_elements fuel r')
          else if Ascii.eqb c "]" then Some ([v], r')
          else None
      | EmptyString => None
      end
  | None => None
  end.
Proof. reflexivity. Qed.

Lemma reads_back_text (v : Value) :
  reads_back v -> is_json v = true ->
  exists c t,
    element_text v = String c t /\ stringify v = Some (String c t) /\
    value_start c = true /\
    (weight v <= S (String.length t))%nat /\
    forall fuel rest,
      (weight v <= fuel)%nat -> delimited rest = true ->
      parse_value fuel (String c t ++ rest) = Some (v, rest).
Proof.
  intros R J. destruct (R J) as (c & t & E & S & L & P).
  exists c, t. unfold element_text. rewrite E. auto.
Qed.

Lemma parse_elements_text (l : list Value) :
  Forall reads_back l -> forallb is_json l = true -> l <> [] ->
  forall fuel rest,
    (elements_weight l <= fuel)%nat ->
    parse_elements fuel (join "," (map element_text l) ++ "]" ++ rest)
    = Some (l, rest).
Proof.
  induction l as [|e l IH]; intros R J N fuel rest F; [congruence|].
  inversion R as [|? ? Re Rl]; subst.
  simpl in J. apply andb_prop in J as [Je Jl].
  destruct (reads_back_text e Re Je) as (c & t & E & _ & S & _ & P).
  unfold elements_weight in F. simpl in F.
  destruct fuel as [|fuel]; [lia|].
  destruct l as [|e2 l].
  - simpl map. unfold join. simpl String.concat. rewrite E.
    rewrite parse_elements_S, (skip_ws_value c _ _ S).
    rewrite (P fuel ("]" ++ rest)) by (simpl; auto; lia).
    reflexivity.
  - assert (X : join "," (map element_text (e :: e2 :: l))
                = String c t ++ "," ++ join "," (map element_text (e2 :: l))).
    { unfold join. simpl. now rewrite E. }
    rewrite X, !append_assoc.
    rewrite parse_elements_S, (skip_ws_value c _ _ S).
    rewrite P by (simpl; auto; lia).
    pose proof (IH Rl Jl ltac:(discriminate) fuel rest) as Hrest.
    remember (join "," (map element_text (e2 :: l)) ++ "]" ++ rest) as tail.
    simpl. rewrite Hrest; [reflexivity|].
    unfold elements_weight. simpl. simpl in F. lia.
Qed.

Lemma parse_members_S (fuel : nat) (s : string) :
  parse_members (S fuel) s =
  match skip_ws s with
  | String c r =>
      if Ascii.eqb c dquote_char then
        match parse_string_body r with
        | Some (k, r1) =>
            match skip_ws r1 with
            | String c2 r2 =>
                if Ascii.eqb c2 ":" then
                  match parse_value fuel (skip_ws r2) with
                  | Some (v, r3) =>
                      match skip_ws r3 with
                      | String c4 r4 =>
                          if Ascii.eqb c4 "," then
                            with_value (cons (k, v)) (parse_members fuel r4)
                          else if Ascii.eqb c4 "}" then Some ([(k, v)], r4)
                          else None
                      | EmptyString => None
                      end
                  | None => None
                  end
                else None
            | EmptyString => None
            end
        | None => None
        end
      else None
  | EmptyString => None
  end.
Proof. reflexivity. Qed.

Lemma skip_ws_other (c : ascii) (rest : string) :
  is_json_ws c = false -> skip_ws (String c rest) = String c rest.
Proof. intros H. simpl. now rewrite H. Qed.

Lemma member_text_shape (k : string) (t rest : string) :
  (quote k ++ ":" ++ t) ++ rest
  = String dquote_char (quote_body k ++ dquote ++ String ":" (t ++ rest)).
Proof.
  unfold quote. rewrite !append_assoc. reflexivity.
Qed.

Lemma parse_members_text (props : list (string * Value)) :
  Forall (fun kv => reads_back (snd kv)) props ->
  forallb (fun kv => is_json (snd kv)) props = true -> props <> [] ->
  forall fuel rest,
    (members_weight props <= fuel)%nat ->
    parse_members fuel (join "," (map member_text props) ++ "}" ++ rest)
    = Some (props, rest).
Proof.
  induction props as [|[k e] props IH]; intros R J N fuel rest F; [congruence|].
  inversion R as [|? ? Re Rl]; subst. simpl in Re.
  simpl in J. apply andb_prop in J as [Je Jl].
  destruct (reads_back_text e Re Je) as (c & t & E & _ & S & _ & P).
  unfold members_weight in F. simpl in F.
  destruct fuel as [|fuel]; [lia|].
  assert (M : member_text (k, e) = quote k ++ ":" ++ String c t)
    by (unfold member_text; simpl; now rewrite E).
  destruct props as [|kv2 props].
  - cbn [map]. unfold join. cbn [String.concat]. rewrite M.
    rewrite member_text_shape, parse_members_S.
    rewrite (skip_ws_other dquote_char) by reflexivity.
    replace (Ascii.eqb dquote_char dquote_char) with true by reflexivity.
    cbv beta iota. rewrite parse_quote_body.
    rewrite (skip_ws_other ":") by reflexivity.
    replace (Ascii.eqb ":" ":") with true by reflexivity. cbv beta iota.
    change (String c (t ++ "}" ++ rest)) with (String c t ++ "}" ++ rest).
    rewrite (skip_ws_value c _ _ S).
    rewrite (P fuel ("}" ++ rest)) by (simpl; auto; lia).
    reflexivity.
  - assert (X : join "," (map member_text ((k, e) :: kv2 :: props))
                = (quote k ++ ":" ++ String c t) ++ ","
                  ++ join "," (map member_text (kv2 :: props))).
    { unfold join. cbn [map]. rewrite M. reflexivity. }
    pose proof (IH Rl Jl ltac:(discriminate) fuel rest) as Hrest.
    rewrite X. rewrite (append_assoc (quote k ++ ":" ++ String c t)).
    remember (join "," (map member_text (kv2 :: props)) ++ "}" ++ rest) as tail.
    rewrite (append_assoc ","). rewrite <- Heqtail.
    rewrite member_text_shape, parse_members_S.
    rewrite (skip_ws_other dquote_char) by reflexivity.
    replace (Ascii.eqb dquote_char dquote_char) with true by reflexivity.
    cbv beta iota. rewrite parse_quote_body.
    rewrite (skip_ws_other ":") by reflexivity.
    replace (Ascii.eqb ":" ":") with true by reflexivity. cbv beta iota.
    change (String c (t ++ "," ++ tail)) with (String c t ++ "," ++ tail).
    rewrite (skip_ws_value c _ _ S).
    rewrite (P fuel ("," ++ tail)) by (simpl; auto; lia).
    simpl. rewrite Hrest; [reflexivity|].
    unfold members_weight. simpl. simpl in F. lia.
Qed.

(** Properties with distinct keys are kept as they are read. *)
Lemma set_property_new (k : string) (v : Value) (acc : list (string * Value)) :
  existsb (String.eqb k) (map fst acc) = false ->
  set_property k v acc = (acc ++ [(k, v)])%list.
Proof.
  induction acc as [|[k' v'] acc IH]; simpl; intros H; [reflexivity|].
  apply orb_false_elim in H as [H1 H2].
  rewrite String.eqb_sym, H1. now rewrite (IH H2).
Qed.

Lemma existsb_app_false (k : string) (a b : list string) :
  existsb (String.eqb k) a = false -> existsb (String.eqb k) b = false ->
  existsb (String.eqb k) (a ++ b)%list = false.
Proof. intros Ha Hb. now rewrite existsb_app, Ha, Hb. Qed.

Lemma build_from (props acc : list (string * Value)) :
  distinct (map fst props) = true ->
  (forall k, In k (map fst props) -> existsb (String.eqb k) (map fst acc) = false) ->
  fold_left (fun a kv => set_property (fst kv) (snd kv) a) props acc
  = (acc ++ props)%list.
Proof.
  revert acc; induction props as [|[k v] props IH]; intros acc D Hacc; simpl.
  - now rewrite List.app_nil_r.
  - simpl in D. apply andb_prop in D as [Dk D]. apply negb_true_iff in Dk.
    rewrite set_property_new by (apply Hacc; simpl; auto).
    rewrite IH; [now rewrite <- List.app_assoc | assumption |].
    intros k' Hk'. rewrite map_app. apply existsb_app_false.
    + apply Hacc. simpl. auto.
    + simpl. rewrite orb_false_r. apply String.eqb_neq. intros ->.
      assert (existsb (String.eqb k) (map fst props) = true)
        by (apply existsb_exists; exists k; split; [assumption | apply String.eqb_refl]).
      congruence.
Qed.

Lemma build_object_distinct (props : list (string * Value)) :
  distinct (map fst props) = true -> build_object props = VObj props.
Proof.
  intros D. unfold build_object. now rewrite build_from.
Qed.

Lemma join_length (sep x : string) (rest : list string) :
  String.length (join sep (x :: rest)) =
  match rest with
  | [] => String.length x
  | _ => (String.length x + String.length sep + String.length (join sep rest))%nat
  end.
Proof.
  unfold join. destruct rest as [|y rest]; [reflexivity|].
  change (String.concat sep (x :: y :: rest))
    with (x ++ sep ++ String.concat sep (y :: rest)).
  rewrite !length_append. lia.
Qed.

Lemma weights_fit {A : Type} (w : A -> nat) (text : A -> string) (l : list A) :
  Forall (fun a => (w a <= String.length (text a))%nat) l ->
  (list_sum (map (fun a => S (w a)) l)
   <= String.length (join "," (map text l)) + 1)%nat.
Proof.
  induction l as [|a l IH]; intros H; [simpl; lia|].
  inversion H as [|? ? Ha Hl]; subst. specialize (IH Hl).
  cbn [map list_sum]. rewrite join_length.
  destruct l as [|b l]; simpl in *; lia.
Qed.

Lemma parse_value_S (fuel : nat) (c : ascii) (r : string) :
  parse_value (S fuel) (String c r) =
  if is_digit c || Ascii.eqb c "-" then with_value VNum (parse_number (String c r))
  else if Ascii.eqb c dquote_char then with_value VStr (parse_string_body r)
  else if Ascii.eqb c "[" then
    match skip_ws r with
    | EmptyString => None
    | String c1 r' =>
        if Ascii.eqb c1 "]" then Some (VArr [], r')
        else with_value VArr (parse_elements fuel (String c1 r'))
    end
  else if Ascii.eqb c "{" then
    match skip_ws r with
    | EmptyString => None
    | String c1 r' =>
        if Ascii.eqb c1 "}" then Some (VObj [], r')
        else with_value build_object (parse_members fuel (String c1 r'))
    end
  else if Ascii.eqb c "t" then keyword_value "rue" (VBool true) r
  else if Ascii.eqb c "f" then keyword_value "alse" (VBool false) r
  else if Ascii.eqb c "n" then keyword_value "ull" VNull r
  else None.
Proof. reflexivity. Qed.

Lemma stringify_array (l : list Value) :
  stringify (VArr l) = Some ("[" ++ join "," (map element_text l) ++ "]").
Proof. reflexivity. Qed.

Lemma stringify_object (props : list (string * Value)) :
  Forall (fun kv => reads_back (snd kv)) props ->
  forallb (fun kv => is_json (snd kv)) props = true ->
  stringify (VObj props) = Some ("{" ++ join "," (map member_text props) ++ "}").
Proof.
  intros R J.
  assert (E : flat_map (fun kv => match stringify (snd kv) with
                                  | Some t => [quote (fst kv) ++ ":" ++ t]
                                  | None => []
                                  end) props
              = map member_text props).
  { induction props as [|kv props IH]; [reflexivity|].
    inversion R as [|? ? Re Rl]; subst.
    simpl in J. apply andb_prop in J as [Je Jl].
    destruct (Re Je) as (c & t & E & _).
    cbn [flat_map map]. rewrite (IH Rl Jl).
    unfold member_text, element_text. now rewrite E. }
  cbn [stringify]. now rewrite E.
Qed.

Lemma first_text_char (l : list string) (c : ascii) (t tail : string) :
  exists t', join "," (String c t :: l) ++ tail = String c t'.
Proof.
  unfold join. destruct l as [|y l]; simpl; eexists; reflexivity.
Qed.

(** Every value that is JSON reads back. *)
Lemma all_read_back (v : Value) : reads_back v.
Proof.
  induction v as [| | b | n | s | l IH | props IH | d] using Value_ind;
    intros J; try discriminate J.
  - exists "n"%char, "ull". repeat split; [simpl; lia|].
    intros [|fuel] rest F _; [simpl in F; lia | reflexivity].
  - destruct b.
    + exists "t"%char, "rue". repeat split; [simpl; lia|].
      intros [|fuel] rest F _; [simpl in F; lia | reflexivity].
    + exists "f"%char, "alse". repeat split; [simpl; lia|].
      intros [|fuel] rest F _; [simpl in F; lia | reflexivity].
  - destruct n as [|z]; [discriminate J|].
    destruct (Z_to_string_start z) as (c & t & E & S).
    exists c, t. split; [simpl; now rewrite E|].
    split; [unfold value_start; apply orb_prop in S as [-> | ->];
            rewrite ?orb_true_r; reflexivity|].
    split; [simpl; lia|].
    intros [|fuel] rest F D; [simpl in F; lia|].
    change (String c t ++ rest) with (String c (t ++ rest)).
    rewrite parse_value_S, S.
    change (String c (t ++ rest)) with (String c t ++ rest).
    now rewrite <- E, parse_number_text.
  - exists dquote_char, (quote_body s ++ dquote).
    split; [reflexivity|]. split; [reflexivity|]. split; [simpl; lia|].
    intros [|fuel] rest F D; [simpl in F; lia|].
    change (String dquote_char (quote_body s ++ dquote) ++ rest)
      with (String dquote_char ((quote_body s ++ dquote) ++ rest)).
    rewrite parse_value_S.
    replace (is_digit dquote_char || Ascii.eqb dquote_char "-") with false
      by reflexivity.
    replace (Ascii.eqb dquote_char dquote_char) with true by reflexivity.
    cbv beta iota. now rewrite append_assoc, parse_quote_body.
  - simpl in J.
    exists "["%char, (join "," (map element_text l) ++ "]").
    split; [apply stringify_array|]. split; [reflexivity|].
    assert (W : Forall (fun e => (weight e <= String.length (element_text e))%nat) l).
    { clear - IH J. induction l as [|e l IHl]; constructor.
      - inversion IH; subst. simpl in J. apply andb_prop in J as [Je _].
        destruct (reads_back_text e H1 Je) as (c & t & -> & _ & _ & L & _).
        exact L.
      - inversion IH; subst. simpl in J. apply andb_prop in J as [_ Jl]. auto. }
    split.
    { rewrite length_append. pose proof (weights_fit weight element_text l W).
      cbn [weight]. simpl String.length. lia. }
    intros [|fuel] rest F D; [simpl in F; lia|].
    change (String "[" (join "," (map element_text l) ++ "]") ++ rest)
      with (String "[" ((join "," (map element_text l) ++ "]") ++ rest)).
    rewrite parse_value_S. simpl orb. cbv beta iota.
    replace (Ascii.eqb "[" dquote_char) with false by reflexivity.
    simpl Ascii.eqb. cbv beta iota. rewrite append_assoc.
    destruct l as [|e l].
    + reflexivity.
    + pose proof (parse_elements_text (e :: l) IH J ltac:(discriminate) fuel rest) as P.
      inversion IH as [|? ? Re _]; subst.
      pose proof J as J'. simpl in J'. apply andb_prop in J' as [Je _].
      destruct (reads_back_text e Re Je) as (c & t & E & _ & S & _).
      cbn [map] in P |- *. rewrite E in P |- *.
      destruct (first_text_char (map element_text l) c t ("]" ++ rest)) as [t' T].
      rewrite T in P |- *.
      destruct (value_start_facts c S) as (Ws & Nb & _).
      rewrite (skip_ws_other c _ Ws), Nb, P; [reflexivity|].
      cbn [weight] in F. unfold elements_weight. lia.
  - simpl in J. apply andb_prop in J as [Dk J].
    exists "{"%char, (join "," (map member_text props) ++ "}").
    split; [now apply stringify_object|]. split; [reflexivity|].
    assert (W : Forall (fun kv => (weight (snd kv) <= String.length (member_text kv))%nat)
                  props).
    { clear - IH J. induction props as [|kv props IHp]; constructor.
      - inversion IH; subst. simpl in J. apply andb_prop in J as [Je _].
        destruct (reads_back_text (snd kv) H1 Je) as (c & t & E & _ & _ & L & _).
        unfold member_text. rewrite E, !length_append. simpl String.length. lia.
      - inversion IH; subst. simpl in J. apply andb_prop in J as [_ Jl]. auto. }
    split.
    { rewrite length_append.
      pose proof (weights_fit (fun kv => weight (snd kv)) member_text props W).
      cbn [weight]. simpl String.length. lia. }
    intros [|fuel] rest F D; [simpl in F; lia|].
    change (String "{" (join "," (map member_text props) ++ "}") ++ rest)
      with (String "{" ((join "," (map member_text props) ++ "}") ++ rest)).
    rewrite parse_value_S. simpl orb. cbv beta iota.
    replace (Ascii.eqb "{" dquote_char) with false by reflexivity.
    simpl Ascii.eqb. cbv beta iota. rewrite append_assoc.
    destruct props as [|kv props].
    + reflexivity.
    + pose proof (parse_members_text (kv :: props) IH J ltac:(discriminate) fuel rest)
        as P.
      cbn [map] in P |- *.
      assert (M : exists x, member_text kv = String dquote_char x)
        by (unfold member_text, quote; eexists; reflexivity).
      destruct M as [x M]. rewrite M in P |- *.
      destruct (first_text_char (map member_text props) dquote_char x ("}" ++ rest))
        as [t' T].
      rewrite T in P |- *.
      rewrite (skip_ws_other dquote_char) by reflexivity.
      replace (Ascii.eqb dquote_char "}") with false by reflexivity.
      rewrite P.
      * simpl with_value. now rewrite build_object_distinct.
      * cbn [weight] in F. unfold members_weight. lia.
Qed.

(** Composite values survive the JSON round trip. *)
Lemma JSON_parse_stringify (v : Value) :
  is_json v = true -> JSON_parse (JSON_stringify v) = Return v.
Proof.
  intros J. destruct (all_read_back v J) as (c & t & E & S & L & P).
  unfold JSON_stringify, JSON_parse. rewrite E. cbn [ToString].
  rewrite <- (append_nil_r (String c t)) at 2.
  rewrite (skip_ws_value c t EmptyString S), P by (simpl; auto; lia).
  reflexivity.
Qed.

(** ** Column values: the round trip *)

Lemma JSON_stringify_text (v : Value) :
  is_json v = true -> exists t, JSON_stringify v = VStr t.
Proof.
  intros J. destruct (all_read_back v J) as (c & t & E & _).
  unfold JSON_stringify. rewrite E. eauto.
Qed.

Lemma roundTrip_composite (p : PropertyDefinition) (v : Value) :
  In (type_name p) ["Object"; "List"; "GeoPoint"; "Point"] ->
  is_json v = true -> v <> VNull ->
  roundTrip p v = Return (Plain v).
Proof.
  intros T J N.
  assert (E1 : toColumnValue (Some p) v = Return (JSON_stringify v)).
  { unfold toColumnValue.
    destruct T as [T | [T | [T | [T | []]]]]; rewrite <- T;
      destruct v; try congruence; reflexivity. }
  destruct (JSON_stringify_text v J) as [t Et].
  assert (E2 : fromColumnValue (Some p) (VStr t)
               = (x <- JSON_parse (VStr t) ;; Return (Plain x))).
  { unfold fromColumnValue.
    destruct T as [T | [T | [T | [T | []]]]]; rewrite <- T; reflexivity. }
  unfold roundTrip. rewrite E1. simpl JS.bind. rewrite Et, E2, <- Et.
  now rewrite (JSON_parse_stringify v J).
Qed.




(** * Further properties of the code *)

(** ** Default values *)

Lemma more_defaults_text (count : nat) (result : string) :
  more_defaults count result
  = result ++ String.concat EmptyString (repeat ",DEFAULT" count).
Proof.
  revert result; induction count as [|count IH]; intros result.
  - simpl. now rewrite append_nil_r.
  - simpl more_defaults. rewrite IH. simpl repeat. rewrite concat_empty_cons.
    now rewrite append_assoc.
Qed.

(** X1.  [buildInsertDefaultValues] writes exactly one [DEFAULT] for
    every property of the model, separated by commas, inside [VALUES(]
    and [)]; a model without properties gives [VALUES()]. *)
Theorem buildInsertDefaultValues_one_per_property (model : Model) :
  buildInsertDefaultValues model
  = "VALUES(" ++ join "," (repeat "DEFAULT" (List.length (columns model))) ++ ")".
Proof.
  unfold buildInsertDefaultValues.
  destruct (List.length (columns model)) as [|n]; [reflexivity|].
  change (0 <? S n)%nat with true. cbv iota.
  replace (S n - 1)%nat with n by lia.
  rewrite more_defaults_text. unfold join. simpl repeat.
  rewrite <- (concat_with_sep "," "DEFAULT" (repeat "DEFAULT" n)).
  now rewrite map_repeat.
Qed.

(** ** Upsert: the fallback and the bound values *)



Lemma join_params (items : list PSQL.t) (sep : string) :
  PSQL.params (PSQL.join items sep) = flat_map PSQL.params items.
Proof.
  unfold PSQL.join.
  assert (G : forall acc,
             PSQL.params (fold_left (fun ps stmt => PSQL.append ps stmt sep) items acc)
             = (PSQL.params acc ++ flat_map PSQL.params items)%list).
  { induction items as [|x items IH]; intros acc; simpl.
    - now rewrite List.app_nil_r.
    - rewrite IH. unfold PSQL.append. simpl. now rewrite <- List.app_assoc. }
  now rewrite G.
Qed.

Lemma of_string_params (f : string -> string) (l : list string) :
  flat_map PSQL.params (map (fun c => PSQL.of_string (f c)) l) = [].
Proof. induction l as [|x l IH]; simpl; auto. Qed.

(** The first loop keeps the values of every field, in order. *)
Lemma cast_loop_params (fields : Fields) (n : nat) :
  forall (vs : list PSQL.t) (ps : list PropertyDefinition)
         (vs0 : list PSQL.t) (ps0 : list PropertyDefinition),
    columnValues fields = (vs0 ++ vs)%list -> properties fields = (ps0 ++ ps)%list ->
    List.length ps0 = List.length vs0 -> List.length ps = List.length vs ->
    Forall (fun p => exists type, buildColumnType p = Return type) ps ->
    exists casts,
      cast_loop fields n (seq (List.length vs0) (List.length vs)) = Return casts /\
      flat_map PSQL.params casts = flat_map PSQL.params vs.
Proof.
  induction vs as [|v vs IH]; intros ps vs0 ps0 Ev Ep L1 L2 T.
  - exists []. split; reflexivity.
  - destruct ps as [|p ps]; [discriminate|].
    inversion T as [|? ? [type Ht] T']; subst.
    destruct (IH ps (vs0 ++ [v])%list (ps0 ++ [p])%list) as (casts & Hc & Hp);
      rewrite <- ?List.app_assoc; simpl; auto;
      try (rewrite ?length_app; simpl in *; lia).
    replace (List.length (vs0 ++ [v])%list) with (S (List.length vs0)) in Hc
      by (rewrite length_app; simpl; lia).
    assert (Iv : item (columnValues fields) (List.length vs0) = Return v)
      by (rewrite Ev; apply item_middle).
    assert (Ip : item (properties fields) (List.length vs0) = Return p)
      by (rewrite Ep, <- L1; apply item_middle).
    simpl seq. simpl cast_loop.
    rewrite Iv. simpl JS.bind. rewrite Ip. simpl JS.bind.
    rewrite Ht. simpl JS.bind. rewrite Hc. simpl JS.bind.
    eexists. split; [reflexivity|].
    simpl flat_map. rewrite Hp.
    destruct (List.length vs0 <? n - 1)%nat; reflexivity.
Qed.



(** ** The callback of the upsert, and affected rows *)

Lemma get_prop_truthy (info : Value) (key : string) :
  ToBoolean info = true -> exists v, get_prop info key = Return v.
Proof.
  intros H. destruct info as [| | b | n | s | l | props | d]; simpl in H;
    try discriminate H; simpl; try (eexists; reflexivity).
  - destruct (key =? "length"); [eexists; reflexivity|].
    destruct (array_index key) as [i|]; [|eexists; reflexivity].
    destruct (String.get i s); eexists; reflexivity.
  - destruct (key =? "length"); [eexists; reflexivity|].
    destruct (array_index key); eexists; reflexivity.
  - destruct (find (fun kv => fst kv =? key) props); eexists; reflexivity.
Qed.


(** X5.  [getCountForAffectedRows] never throws and gives a number or
    [undefined], nothing else; for rows that arrive as an array it gives
    [undefined]. *)
Theorem getCountForAffectedRows_number_or_undefined (info : Value) :
  (getCountForAffectedRows info = Return VUndefined \/
   exists n, getCountForAffectedRows info = Return (VNum n)) /\
  (forall rows, getCountForAffectedRows (VArr rows) = Return VUndefined).
Proof.
  split; [|reflexivity].
  unfold getCountForAffectedRows.
  destruct (ToBoolean info) eqn:Hi; [|now left].
  destruct (get_prop_truthy info "affectedRows" Hi) as [x Hx].
  rewrite Hx. simpl JS.bind.
  destruct x as [| | b | n | s | l | props | d]; simpl; auto.
  right. now exists n.
Qed.

(** ** Column types *)

Lemma convertNumberType_error (p : PropertyDefinition) (dt : string) (e : Exception) :
  convertNumberType p dt = Throw e ->
  e = scale_error /\
  (positive_Z (scale p) = true \/
   exists block, informix p = Some block /\ positive_Z (dataScale block) = true).
Proof.
  unfold convertNumberType.
  destruct (informix p) as [block|].
  - destruct (truthy_string (dataType block)).
    + destruct (text_of_string (dataType block) =? "DECIMAL"); [|discriminate].
      destruct (truthy_Z (dataPrecision block) && truthy_Z (dataScale block));
        [discriminate|].
      destruct (positive_Z (dataScale block)) eqn:S; [|discriminate].
      intros H; injection H as <-. split; [reflexivity|]. right. eauto.
    + destruct (truthy_string (prop_dataType p)); [|discriminate].
      destruct (text_of_string (prop_dataType p) =? "DECIMAL"); [|discriminate].
      destruct (truthy_Z (precision p) && truthy_Z (scale p)); [discriminate|].
      destruct (positive_Z (scale p)) eqn:S; [|discriminate].
      intros H; injection H as <-. auto.
  - destruct (truthy_string (prop_dataType p)); [|discriminate].
    destruct (text_of_string (prop_dataType p) =? "DECIMAL"); [|discriminate].
    destruct (truthy_Z (precision p) && truthy_Z (scale p)); [discriminate|].
    destruct (positive_Z (scale p)) eqn:S; [|discriminate].
    intros H; injection H as <-. auto.
Qed.

(** X6.  Building a column type fails in one way only: for a [Number]
    property, with the error about a scale without precision, and only
    when a scale above zero is declared (on the property or in its
    dialect block).  Every other property gets a type. *)
Theorem buildColumnType_only_error (p : PropertyDefinition) (e : Exception) :
  buildColumnType p = Throw e ->
  type_name p = "Number" /\ e = scale_error /\
  (positive_Z (scale p) = true \/
   exists block, informix p = Some block /\ positive_Z (dataScale block) = true).
Proof.
  unfold buildColumnType.
  destruct (String.eqb_spec (type_name p) "Number") as [T|T].
  - intros H. destruct (convertNumberType_error p "INTEGER" e H). auto.
  - destruct (type_name p =? "Date"); [discriminate|].
    destruct (type_name p =? "Boolean"); [discriminate|].
    destruct (one_of (type_name p) ["Point"; "GeoPoint"]); [discriminate|].
    destruct (type_name p =? "Enum"); discriminate.
Qed.

Lemma buildColumnType_only_error_witness :
  let p := mkProperty "Number" None false false false None None (Some 2)
             (Some "DECIMAL") None None None in
  type_name p = "Number" /\ scale_error = scale_error /\
  (positive_Z (scale p) = true \/
   exists block, informix p = Some block /\ positive_Z (dataScale block) = true).
Proof.
  intros p. apply (buildColumnType_only_error p scale_error). reflexivity.
Defined.

(** X7.  For a [Number] property without a dialect block, the column
    type fails exactly when the declared data type is [DECIMAL] with a
    scale above zero and no precision; without a declared data type the
    type is [INTEGER], whatever the precision and the scale. *)
Theorem number_column_type (p : PropertyDefinition) :
  type_name p = "Number" -> informix p = None ->
  (buildColumnType p = Throw scale_error <->
   prop_dataType p = Some "DECIMAL" /\ truthy_Z (precision p) = false /\
   positive_Z (scale p) = true) /\
  (truthy_string (prop_dataType p) = false -> buildColumnType p = Return "INTEGER").
Proof.
  intros T I. unfold buildColumnType. rewrite T. simpl String.eqb. cbv iota.
  unfold convertNumberType. rewrite I.
  split.
  - destruct (prop_dataType p) as [dt|] eqn:D; simpl truthy_string.
    + destruct dt as [|c dt]; simpl negb; cbv iota.
      * split; [discriminate | intros (H & _); discriminate H].
      * simpl text_of_string.
        destruct (String.eqb_spec (String c dt) "DECIMAL") as [E|E].
        -- rewrite E.
           destruct (truthy_Z (precision p)) eqn:P, (truthy_Z (scale p)) eqn:S,
             (positive_Z (scale p)) eqn:Q; simpl; split; intros H;
             try discriminate H; try (destruct H as (_ & ? & ?); discriminate);
             auto.
           destruct (scale p) as [z|]; simpl in S, Q; [|discriminate Q].
           apply Z.ltb_lt in Q. apply negb_false_iff in S.
           apply Z.eqb_eq in S. lia.
        -- split; [discriminate|]. intros (H & _). injection H as H. congruence.
    + split; [discriminate | intros (H & _); discriminate H].
  - intros H. now rewrite H.
Qed.

Lemma number_column_type_witness :
  let p := mkProperty "Number" None false false false None (Some 10) None
             None None None None in
  (buildColumnType p = Throw scale_error <->
   prop_dataType p = Some "DECIMAL" /\ truthy_Z (precision p) = false /\
   positive_Z (scale p) = true) /\
  (truthy_string (prop_dataType p) = false -> buildColumnType p = Return "INTEGER").
Proof.
  intros p. apply (number_column_type p); reflexivity.
Defined.

(** X8.  A character set or a collation declared on a property changes
    the column type of an [Enum] only: for every other type the result
    is the same whatever the two settings are, so a text column never
    carries them. *)
Theorem column_type_ignores_string_options
    (p : PropertyDefinition) (charset collation : option string) :
  type_name p <> "Enum" ->
  buildColumnType (with_string_options p charset collation) = buildColumnType p.
Proof.
  intros T. unfold buildColumnType, with_string_options. simpl type_name.
  destruct (String.eqb_spec (type_name p) "Enum") as [E|_]; [congruence|].
  destruct (type_name p =? "Number"); [reflexivity|].
  destruct (type_name p =? "Date"); [reflexivity|].
  destruct (type_name p =? "Boolean"); [reflexivity|].
  destruct (one_of (type_name p) ["Point"; "GeoPoint"]); reflexivity.
Qed.

Lemma column_type_ignores_string_options_witness :
  let p := mkProperty "String" None false false false (Some 40) None None
             None None None None in
  buildColumnType (with_string_options p (Some "utf8") (Some "binary"))
  = buildColumnType p.
Proof.
  intros p. apply (column_type_ignores_string_options p); discriminate.
Defined.

(** ** Column values: [null] and failures *)

(** X9.  [null] comes back as [null] from the round trip through the
    column value exactly for a property that is neither an id nor
    auto-incremented: for those two the column value is the [DEFAULT]
    marker, which [fromColumnValue] does not turn back into [null]. *)
Theorem roundTrip_null (p : PropertyDefinition) :
  roundTrip p VNull = Return (Plain VNull) <-> autoIncrement p || id p = false.
Proof.
  unfold roundTrip, toColumnValue.
  destruct (autoIncrement p || id p); simpl JS.bind.
  - split; [|discriminate]. unfold fromColumnValue. simpl.
    destruct (type_name p =? "Number"); [discriminate|].
    destruct (type_name p =? "String"); [discriminate|].
    destruct (type_name p =? "Date"); [discriminate|].
    destruct (type_name p =? "Boolean"); [discriminate|].
    match goal with
    | |- (if ?c then _ else _) = _ -> _ => destruct c; discriminate
    end.
  - split; reflexivity.
Qed.

(** X10.  [fromColumnValue] fails in one way only: with the
    [SyntaxError] of [JSON.parse], and only for the six types it decodes
    from JSON text.  A [null] column value and an absent property
    descriptor never fail. *)
Theorem fromColumnValue_only_error
    (prop : option PropertyDefinition) (val : Value) (e : Exception) :
  fromColumnValue prop val = Throw e ->
  e = SyntaxError /\ val <> VNull /\
  exists p, prop = Some p /\
            In (type_name p) ["GeoPoint"; "Point"; "List"; "Array"; "Object"; "JSON"].
Proof.
  assert (J : forall v r, (x <- JSON_parse v ;; Return (Plain x)) = Throw r ->
                          r = SyntaxError).
  { intros v r. unfold JSON_parse.
    destruct (parse_value _ _) as [[x rest]|]; simpl;
      [destruct (skip_ws rest =? EmptyString); simpl|]; congruence. }
  assert (M : forall name l, one_of name l = true -> In name l).
  { intros name l H. unfold one_of in H. apply existsb_exists in H as (x & Hin & Hx).
    apply String.eqb_eq in Hx. now subst. }
  unfold fromColumnValue.
  destruct prop as [p|]; [|destruct val; discriminate].
  destruct (type_name p =? "Number") eqn:T1; [destruct val; discriminate|].
  destruct (type_name p =? "String") eqn:T2; [destruct val; discriminate|].
  destruct (type_name p =? "Date") eqn:T3; [destruct val; discriminate|].
  destruct (type_name p =? "Boolean") eqn:T4; [destruct val; discriminate|].
  destruct (one_of (type_name p)
              ["GeoPoint"; "Point"; "List"; "Array"; "Object"; "JSON"]) eqn:T5;
    [|destruct val; discriminate].
  intros H. apply M in T5.
  destruct val; try discriminate H;
    (split; [apply (J _ _ H) | split; [discriminate | eauto]]).
Qed.

Lemma fromColumnValue_only_error_witness :
  let p := mkProperty "Object" None false false false None None None None
             None None None in
  SyntaxError = SyntaxError /\ VStr "{" <> VNull /\
  exists q, Some p = Some q /\
            In (type_name q) ["GeoPoint"; "Point"; "List"; "Array"; "Object"; "JSON"].
Proof.
  intros p. apply (fromColumnValue_only_error (Some p) (VStr "{") SyntaxError).
  vm_compute. reflexivity.
Defined.

(** X11.  [toColumnValue] fails in two cases only, each with a
    [TypeError]: a [null] value without a property descriptor, and a
    [Date] property with a value that is not a [Date]. *)
Theorem toColumnValue_only_errors
    (prop : option PropertyDefinition) (val : Value) (e : Exception) :
  toColumnValue prop val = Throw e ->
  e = TypeError /\
  ((val = VNull /\ prop = None) \/
   (exists p, prop = Some p /\ type_name p = "Date" /\ forall d, val <> VDate d)).
Proof.
  assert (G : forall p, val <> VNull ->
    (let name := type_name p in
     if one_of name ["Array"; "Number"; "String"] then Return val
     else if name =? "Boolean" then Return (VNum (ToNumber val))
     else if one_of name ["GeoPoint"; "Point"; "List"; "Object"; "ModelConstructor"]
     then Return (JSON_stringify val)
     else if name =? "JSON" then Return (VStr (ToString val))
     else if name =? "Date" then
       match val with
       | VDate d => Return (VStr (dateToInformix d))
       | _ => Throw TypeError
       end
     else Return val) = Throw e ->
    e = TypeError /\ type_name p = "Date" /\ forall d, val <> VDate d).
  { intros p N. cbv zeta.
    destruct (one_of (type_name p) ["Array"; "Number"; "String"]); [discriminate|].
    destruct (type_name p =? "Boolean"); [discriminate|].
    destruct (one_of (type_name p) _); [discriminate|].
    destruct (type_name p =? "JSON"); [discriminate|].
    destruct (String.eqb_spec (type_name p) "Date") as [T|T]; [|discriminate].
    destruct val; try discriminate; intros H; injection H as <-;
      repeat split; auto; discriminate. }
  unfold toColumnValue.
  destruct val as [| | b | n | s | l | props | d].
  2: { destruct prop as [p|].
       - destruct (autoIncrement p || id p); discriminate.
       - intros H; injection H as <-. auto. }
  all: destruct prop as [p|]; [|discriminate];
    intros H; apply G in H; [|discriminate];
    destruct H as (-> & T & D); split; [reflexivity|]; right; eauto.
Qed.

Lemma toColumnValue_only_errors_witness :
  let p := mkProperty "Date" None false false false None None None None
             None None None in
  TypeError = TypeError /\
  ((VStr "2016-03-04" = VNull /\ Some p = None) \/
   (exists q, Some p = Some q /\ type_name q = "Date" /\
              forall d, VStr "2016-03-04" <> VDate d)).
Proof.
  intros p. apply (toColumnValue_only_errors (Some p) (VStr "2016-03-04") TypeError).
  reflexivity.
Defined.

(** ** Identifiers *)

Lemma append_inv_tail (a b c : string) : a ++ c = b ++ c -> a = b.
Proof.
  intros H.
  assert (L : String.length a = String.length b).
  { apply (f_equal String.length) in H. rewrite !length_append in H. lia. }
  now destruct (prefix_length_eq _ _ _ _ H L).
Qed.

(** X12.  [escapeName] keeps identifiers apart: two names that escape
    to the same text are the same name. *)
Theorem escapeName_injective (a b : string) :
  escapeName a = escapeName b -> a = b.
Proof.
  unfold escapeName.
  destruct a as [|x a], b as [|y b]; simpl; intros H; try discriminate H; auto.
  injection H as Hx H. apply append_inv_tail in H. congruence.
Qed.

Lemma escapeName_injective_witness : "Customer" = "Customer".
Proof. apply (escapeName_injective "Customer" "Customer"). reflexivity. Defined.

(** ** Pagination clauses in a statement *)

Lemma strip_prefix_append (kw t clause : string) :
  strip_prefix kw (t ++ clause) =
  match strip_prefix kw t with
  | Some r => Some (r ++ clause)
  | None =>
      match strip_prefix t kw with
      | Some v => strip_prefix v clause
      | None => None
      end
  end.
Proof.
  revert t; induction kw as [|a kw IH]; intros t.
  - reflexivity.
  - destruct t as [|b t]; [reflexivity|]. simpl.
    rewrite (Ascii.eqb_sym b a). destruct (Ascii.eqb a b); [apply IH | reflexivity].
Qed.

Lemma empty_proper_tail (a : ascii) (kw : string) :
  In EmptyString (proper_tails (String a kw)).
Proof.
  revert a; induction kw as [|b kw IH]; intros a; simpl; [auto|].
  right. apply (IH b).
Qed.

Lemma strip_prefix_proper_tail (t kw v : string) :
  t <> EmptyString -> strip_prefix t kw = Some v -> In v (proper_tails kw).
Proof.
  revert kw; induction t as [|a t IH]; intros kw N H; [congruence|].
  destruct kw as [|b kw]; [discriminate H|]. simpl in H.
  destruct (Ascii.eqb a b); [|discriminate H].
  destruct t as [|a' t].
  - simpl in H. injection H as <-. simpl. auto.
  - simpl proper_tails. right. apply IH; [discriminate | exact H].
Qed.

(** A text without a match at its head gets none from what is put
    after it, when no proper tail of the keyword matches there. *)
Lemma match_here_append (kw t clause : string) :
  t <> EmptyString ->
  match_here (mkRegExp kw) t = None ->
  (forall v, In v (proper_tails kw) -> match_here (mkRegExp v) clause = None) ->
  match_here (mkRegExp kw) (t ++ clause) = None.
Proof.
  intros N M T. unfold match_here in *. simpl keyword in *.
  rewrite strip_prefix_append.
  destruct (strip_prefix kw t) as [r|] eqn:P.
  - destruct r as [|x r].
    + destruct kw as [|a kw].
      * simpl in P. injection P as ->. congruence.
      * apply (T EmptyString (empty_proper_tail a kw)).
    + simpl in M |- *. destruct (is_digit x); [|reflexivity].
      destruct (span_digits r); simpl in M. discriminate M.
  - destruct (strip_prefix t kw) as [v|] eqn:Q; [|reflexivity].
    apply (T v). now apply (strip_prefix_proper_tail t).
Qed.

Lemma exec_append (kw base clause : string) :
  exec (mkRegExp kw) base = None ->
  (forall v, In v (proper_tails kw) -> match_here (mkRegExp v) clause = None) ->
  exec (mkRegExp kw) (base ++ clause) = found_after base (exec (mkRegExp kw) clause).
Proof.
  intros E T. induction base as [|c base IH].
  - simpl. now destruct (exec (mkRegExp kw) clause) as [[[p d] r]|].
  - simpl in E.
    destruct (match_here (mkRegExp kw) (String c base)) as [[d r]|] eqn:M;
      [discriminate E|].
    destruct (exec (mkRegExp kw) base) as [[[p d] r]|] eqn:E'; [discriminate E|].
    change (String c base ++ clause) with (String c (base ++ clause)).
    simpl exec.
    change (String c (base ++ clause)) with (String c base ++ clause).
    rewrite (match_here_append kw (String c base) clause ltac:(discriminate) M T).
    rewrite (IH eq_refl).
    now destruct (exec (mkRegExp kw) clause) as [[[p d] r]|].
Qed.

Lemma exec_skip (re : RegExp) (c : ascii) (s : string) :
  match_here re (String c s) = None ->
  exec re (String c s) = found_after (String c EmptyString) (exec re s).
Proof.
  intros M. simpl exec. rewrite M.
  now destruct (exec re s) as [[[p d] r]|].
Qed.

Lemma exec_here (kw ds post : string) :
  ds <> EmptyString -> all_digits ds = true -> starts_with_digit post = false ->
  exec (mkRegExp kw) (kw ++ ds ++ post) = Some (EmptyString, ds, post).
Proof.
  intros N D P.
  assert (M : match_here (mkRegExp kw) (kw ++ ds ++ post) = Some (ds, post)).
  { unfold match_here. simpl keyword. rewrite strip_prefix_app, (span_digits_app _ _ D P).
    destruct ds; [congruence | reflexivity]. }
  destruct (kw ++ ds ++ post); simpl; now rewrite M.
Qed.

(** A keyword that starts with a character other than a digit is not
    found in a run of digits. *)
Lemma exec_digits (k : ascii) (kw ds rest : string) :
  is_digit k = false -> all_digits ds = true ->
  exec (mkRegExp (String k kw)) (ds ++ rest) =
  found_after ds (exec (mkRegExp (String k kw)) rest).
Proof.
  intros K D. induction ds as [|d ds IH].
  - simpl. now destruct (exec _ rest) as [[[p x] r]|].
  - rewrite all_digits_cons in D. apply andb_prop in D as [Dd D].
    change (String d ds ++ rest) with (String d (ds ++ rest)).
    rewrite exec_skip.
    + rewrite (IH D). now destruct (exec _ rest) as [[[p x] r]|].
    + unfold match_here. simpl.
      destruct (Ascii.eqb_spec k d) as [->|]; [congruence | reflexivity].
Qed.

Lemma Z_to_string_digits (n : Z) :
  0 < n ->
  Z_to_string n <> EmptyString /\ all_digits (Z_to_string n) = true /\
  digits_to_Z (Z_to_string n) = n.
Proof.
  intros H. destruct n as [|p|p]; try lia.
  destruct (text_of_positive p) as (c & t & E1 & E2 & Hc & _ & Hv).
  assert (E : Z_to_string (Z.pos p) = String c t) by (unfold Z_to_string; simpl; exact E1).
  rewrite E. repeat split; [discriminate | | exact Hv].
  rewrite <- E2. apply digits_of_uint.
Qed.

Lemma buildLimit_numbers (limit offset : Z) :
  0 < limit -> 0 < offset ->
  buildLimit (VNum (Int limit)) (VNum (Int offset)) =
  "LIMIT " ++ Z_to_string limit ++ " OFFSET " ++ Z_to_string offset.
Proof.
  intros L O. unfold buildLimit. simpl.
  destruct (Z.eqb_spec limit 0); [lia|]. destruct (Z.eqb_spec offset 0); [lia|].
  reflexivity.
Qed.

Lemma slice_list_empty {A : Type} (rows : list A) (offset : Z) :
  slice_list rows offset (offset + 0) = [].
Proof.
  unfold slice_list. rewrite Z.add_0_r, Z.sub_diag. reflexivity.
Qed.

(** The callback of [conn.query] when a limit or an offset was kept. *)
Lemma on_reply_sliced (limit offset : Z) (callback : Callback) (r : QueryReply)
    (rows : list Value) :
  limit <> 0 \/ offset <> 0 ->
  data r = VArr rows ->
  let result := slice_list rows offset (offset + limit) in
  exists calls,
    on_reply (Int limit) (Int offset) (Some callback) r = Return calls /\
    Forall (fun c => args c = [err r; VArr result]) calls /\
    In (mkCall Now (Some callback) [err r; VArr result]) calls.
Proof.
  intros NZ D result. unfold on_reply. rewrite D. simpl ToBoolean.
  assert (G : negb (offset =? 0)%Z || negb (limit =? 0)%Z = true).
  { destruct (Z.eqb_spec offset 0), (Z.eqb_spec limit 0); simpl; auto. lia. }
  rewrite G. simpl. fold result.
  destruct (negb (ToBoolean (err r)) && ToBoolean (more r));
    eexists; (split; [reflexivity|]); split; simpl; auto; repeat constructor.
Qed.

Ltac tails_fail :=
  let v := fresh "v" in let H := fresh "H" in
  intros v H; simpl in H;
  repeat (destruct H as [<-|H]; [reflexivity|]); destruct H.

Ltac skip_chars := repeat (rewrite exec_skip by reflexivity).

(** Queries of a connector that paginates on the client side, built from
    a statement that carries no pagination token of its own. *)
Section PaginatedQuery.

Variable self : Connector.
Variable options : Options.
Variable callback : Callback.
Variable driver : QueryCall -> QueryReply.
Variable stmt : PSQL.t.

Hypothesis client_paging : useLimitOffset self = false.
Hypothesis not_empty : PSQL.sql stmt <> EmptyString.
Hypothesis no_limit : NoToken "LIMIT " (PSQL.sql stmt).
Hypothesis no_offset : NoToken "OFFSET " (PSQL.sql stmt).

Lemma applyPagination_text (filter : Filter) (clause : string) :
  buildLimit (f_limit filter)
    (if ToBoolean (f_offset filter) then f_offset filter else f_skip filter) = clause ->
  clause <> EmptyString ->
  applyPagination stmt filter = PSQL.mk (PSQL.sql stmt ++ " " ++ clause) (PSQL.params stmt).
Proof.
  intros B N. unfold applyPagination, PSQL.merge, PSQL.append. rewrite B. simpl.
  destruct (PSQL.sql stmt) as [|c s] eqn:E; [now destruct not_empty|].
  rewrite eqb_empty_false. simpl negb. cbv iota.
  destruct clause; [congruence|]. rewrite eqb_empty_false. simpl negb. cbv iota.
  now rewrite List.app_nil_r, append_assoc.
Qed.




End PaginatedQuery.




(** X16.  When a limit or an offset was taken out of the text and the
    driver hands over something that is neither an array nor a string,
    as it does with [undefined] when the query fails, the callback of
    [conn.query] throws a [TypeError] at the slice: the caller's callback
    is not called, and an error of the query is not reported. *)
Theorem executeSQL_paginated_failure_throws
    (self : Connector) (params : list Value) (options : Options)
    (callback : option Callback) (driver : QueryCall -> QueryReply)
    (sql sql1 sql2 : string) (limit offset : Z) :
  useLimitOffset self = false ->
  Stripped "LIMIT " sql sql1 limit ->
  Stripped "OFFSET " sql1 sql2 offset ->
  limit <> 0 \/ offset <> 0 ->
  let call := mkQueryCall (chosen_connection self options) sql2 params in
  (forall rows, data (driver call) <> VArr rows) ->
  (forall text, data (driver call) <> VStr text) ->
  executeSQL self sql params options callback driver = (call, Throw TypeError).
Proof.
  intros C L O NZ call NA NS. unfold executeSQL.
  rewrite (prepare_stripped self params options C sql sql1 sql2 limit offset L O).
  fold call. f_equal. unfold on_reply. simpl ToBoolean.
  assert (G : negb (offset =? 0)%Z || negb (limit =? 0)%Z = true).
  { destruct (Z.eqb_spec offset 0), (Z.eqb_spec limit 0); simpl; auto. lia. }
  rewrite G.
  destruct (data (driver call)) as [| | b | n | s | l | props | d] eqn:D;
    try reflexivity.
  - now destruct (NS s).
  - now destruct (NA l).
Qed.

Lemma executeSQL_paginated_failure_throws_witness :
  let self := mkConnector false 1%nat "APP" "DRIVER={Informix}" in
  let failure := VObj [("message", VStr "connection lost")] in
  let driver := fun _ : QueryCall => mkReply failure VUndefined VUndefined in
  executeSQL self "SELECT * FROM T LIMIT 2 OFFSET 1" [] (mkOptions None) (Some "cb") driver
  = (mkQueryCall 1%nat "SELECT * FROM T  " [], Throw TypeError).
Proof.
  intros self failure driver.
  apply (executeSQL_paginated_failure_throws self [] (mkOptions None) (Some "cb") driver
           "SELECT * FROM T LIMIT 2 OFFSET 1"
           "SELECT * FROM T  OFFSET 1" "SELECT * FROM T  " 2 1 eq_refl).
  - apply (Stripped_check "LIMIT " _ "SELECT * FROM T " "2" " OFFSET 1"). reflexivity.
  - apply (Stripped_check "OFFSET " _ "SELECT * FROM T  " "1" EmptyString). reflexivity.
  - left. lia.
  - discriminate.
  - discriminate.
Defined.

(** ** Connection *)

Lemma or_else_default (a : option string) (d : string) :
  is_undefined (or_else a (Some d)) = false.
Proof. unfold or_else. destruct a as [s|]; simpl; [destruct (negb _)|]; reflexivity. Qed.

Lemma Informix_protocol (settings : Settings) :
  is_undefined (this_protocol (Informix settings)) = false.
Proof.
  unfold Informix. destruct (truthy_string (s_schema settings)); apply or_else_default.
Qed.

Lemma is_undefined_false {A : Type} (o : option A) :
  is_undefined o = false <-> o <> None.
Proof. destruct o; simpl; split; congruence. Qed.


(** ** Transactions, continued *)

(** X18.  With one of the two accepted isolation levels,
    [beginTransaction] opens a connection; when that fails the callback
    gets the error and no connection.  Otherwise the transaction is begun,
    the isolation level is set by a query on the new connection, and the
    callback gets that connection with the error of the query: what
    [connection.beginTransaction] reports is not passed on. *)
Theorem beginTransaction_accepted_level
    (self : Connector) (driver : Driver) (level : string) :
  level = READ_COMMITTED \/ level = SERIALIZABLE ->
  beginTransaction self driver (VStr level) =
  EOpen (connStr self) ::
  (if ToBoolean (open_err driver) then [ECallback Now (open_err driver) None]
   else
     let c := open_connection driver in
     [EBeginTransaction c; EQuery c ("SET CURRENT ISOLATION " ++ level);
      ECallback Now (query_err driver) (Some c)]).
Proof.
  intros [-> | ->]; unfold beginTransaction; simpl;
    destruct (ToBoolean (open_err driver)); reflexivity.
Qed.

Lemma beginTransaction_accepted_level_witness :
  let self := mkConnector false 1%nat "APP" "DRIVER={Informix}" in
  let failure := VObj [("message", VStr "transactions are not supported")] in
  let driver := mkDriver VNull 2%nat failure VNull VNull VNull VNull in
  beginTransaction self driver (VStr "SERIALIZABLE") =
  [EOpen "DRIVER={Informix}"; EBeginTransaction 2%nat;
   EQuery 2%nat "SET CURRENT ISOLATION SERIALIZABLE";
   ECallback Now VNull (Some 2%nat)].
Proof.
  intros self failure driver.
  apply (beginTransaction_accepted_level self driver "SERIALIZABLE").
  right. reflexivity.
Defined.

(** X19.  Each transaction operation invokes its callback exactly once,
    whatever the driver reports and whatever the isolation level is. *)
Theorem transaction_operations_call_back_once
    (self : Connector) (driver : Driver) (isolationLevel : Value)
    (connection : Connection) :
  callbacks (beginTransaction self driver isolationLevel) = 1%nat /\
  callbacks (commit driver connection) = 1%nat /\
  callbacks (rollback driver connection) = 1%nat.
Proof.
  unfold callbacks, beginTransaction, commit, rollback. repeat split.
  - destruct (strict_neq_string isolationLevel READ_COMMITTED
              && strict_neq_string isolationLevel SERIALIZABLE); [reflexivity|].
    destruct (ToBoolean (open_err driver)); [reflexivity|].
    destruct (ToBoolean isolationLevel); reflexivity.
  - destruct (ToBoolean (commitTransaction_err driver)); reflexivity.
  - destruct (ToBoolean (rollbackTransaction_err driver)); reflexivity.
Qed.

(** ** [update] and [destroyAll] *)

Lemma through_execute_undefined
    (self : Connector) (sql : string) (params : list Value) (options : Options)
    (handler : Value -> Value -> Completion (list Call))
    (driver : QueryCall -> QueryReply) :
  (forall q, data (driver q) = VUndefined) ->
  (forall e, handler e VUndefined = Throw TypeError) ->
  fails_before_callback (snd (through_execute self sql params options handler driver)).
Proof.
  intros D H. unfold through_execute, executeSQL.
  destruct (prepare self sql params options) as [[call limit] offset].
  unfold on_reply. rewrite D. cbn [snd].
  destruct (ToBoolean (VNum offset) || ToBoolean (VNum limit)); simpl.
  - reflexivity.
  - destruct (negb (ToBoolean (err (driver call))) && ToBoolean (more (driver call)));
      simpl; (split; [discriminate | repeat constructor; apply H]).
Qed.

(** X20.  When the driver hands over no rows at all, as with a failed
    statement, [update] and [destroyAll] never reach the caller's
    callback: reading the [length] of the missing rows throws a
    [TypeError], so the failure is not reported through the callback. *)
Theorem update_destroyAll_lose_failure
    (self : Connector) (model : Model) (stmt : PSQL.t) (options : Options)
    (cb : Callback) (driver : QueryCall -> QueryReply) :
  (forall q, data (driver q) = VUndefined) ->
  fails_before_callback (snd (update self model stmt options (Some cb) driver)) /\
  fails_before_callback (snd (destroyAll self model stmt options (Some cb) driver)).
Proof.
  intros D. split; apply through_execute_undefined; auto.
Qed.

Lemma update_destroyAll_lose_failure_witness :
  let self := mkConnector false 1%nat "APP" "DRIVER={Informix}" in
  let model := mkModel "CUSTOMER" "ID" ["ID"; "NAME"] in
  let stmt := PSQL.mk "UPDATE CUSTOMER SET NAME=(?)" [VStr "Ann"] in
  let failure := VObj [("message", VStr "table is locked")] in
  let driver := fun _ : QueryCall => mkReply failure VUndefined VUndefined in
  fails_before_callback (snd (update self model stmt (mkOptions None) (Some "cb") driver)) /\
  fails_before_callback (snd (destroyAll self model stmt (mkOptions None) (Some "cb") driver)).
Proof.
  intros self model stmt failure driver.
  apply (update_destroyAll_lose_failure self model stmt (mkOptions None) "cb" driver).
  reflexivity.
Defined.
